(** * rategrab: the scrape orchestration and merge engine of [server.js]

    A shallow embedding of [src/server.js].  The JavaScript functions are
    translated one by one, keeping their names; every effect of the
    program (files, network requests, the clock, delays) is threaded
    through an explicit [World] and read from an explicit [Env].

    Modelling conventions.
    - The four JSON files hold well-typed documents: the result store is a
      map from composite key to record, the supplier cache a map from item
      id to a JSON value, the campsite registry an array, the date
      registry the entry list of an object (in [Object.entries] order).
    - A file is [Missing], [Unreadable] (reading or [JSON.parse] throws),
      [Blank] (it exists and its text is the empty string) or holds a
      document.  [fs.writeFileSync] is taken to succeed.
    - JavaScript objects used as maps are [gmap]s; the numbers met by the
      code are integers ([Z]).
    - [console.log] output and the HTTP replies are not modelled. *)

From Stdlib Require Import ZArith Lia Ascii String.
From stdpp Require Import base decidable option list strings pretty gmap fin_maps.

Local Open Scope Z_scope.
Set Warnings "-register-all".

(** ** JavaScript values *)

Inductive JSValue : Type :=
| JUndefined
| JNull
| JBool (b : bool)
| JNumber (n : Z)
| JString (s : string)
| JArray (items : list JSValue)
| JObject (fields : list (string * JSValue)).

(** Truthiness, as tested by [if (v)] and [v || w]. *)
Definition truthy (v : JSValue) : bool :=
  match v with
  | JUndefined | JNull => false
  | JBool b => b
  | JNumber n => negb (n =? 0)
  | JString s => negb (String.eqb s "")
  | JArray _ | JObject _ => true
  end.

(** [a || b]. *)
Definition js_or (a b : JSValue) : JSValue := if truthy a then a else b.

Fixpoint assoc_get (fields : list (string * JSValue)) (name : string) : JSValue :=
  match fields with
  | [] => JUndefined
  | (k, v) :: rest => if String.eqb k name then v else assoc_get rest name
  end.

(** [v?.name]: [undefined] on [null] and [undefined], the property of an
    object, [undefined] where the value has no such own property. *)
Definition optional_get (v : JSValue) (name : string) : JSValue :=
  match v with
  | JObject fields => assoc_get fields name
  | _ => JUndefined
  end.

(** An item id as the search API sends it: a number or a string. *)
Inductive ItemId : Type :=
| IdNumber (n : Z)
| IdString (s : string).

(** The string a template literal or a property access makes of an id. *)
Definition ToString (i : ItemId) : string :=
  match i with
  | IdNumber n => pretty n
  | IdString s => s
  end.

(** ** Dates: [new Date().toISOString()] *)

Module Date.

Definition msPerDay : Z := 86400000.

(** Civil date of a day number (days since 1970-01-01), proleptic
    Gregorian calendar. *)
Definition civil_from_days (days : Z) : Z * Z * Z :=
  let z := days + 719468 in
  let era := z / 146097 in
  let doe := z - era * 146097 in
  let yoe := (doe - doe / 1460 + doe / 36524 - doe / 146096) / 365 in
  let y := yoe + era * 400 in
  let doy := doe - (365 * yoe + yoe / 4 - yoe / 100) in
  let mp := (5 * doy + 2) / 153 in
  let d := doy - (153 * mp + 2) / 5 + 1 in
  let m := if mp <? 10 then mp + 3 else mp - 9 in
  (if m <=? 2 then y + 1 else y, m, d).

Fixpoint zeros (n : nat) : string :=
  match n with
  | O => ""
  | S n' => String "0"%char (zeros n')
  end.

(** A non-negative number padded with zeros to [width] digits. *)
Definition pad (width : nat) (n : Z) : string :=
  let s := pretty (Z.abs n) in
  zeros (width - String.length s)%nat +:+ s.

Definition year_string (y : Z) : string :=
  if (0 <=? y) && (y <=? 9999) then pad 4 y
  else (if y <? 0 then "-" else "+") +:+ pad 6 y.

Definition toISOString (t : Z) : string :=
  let '(y, m, d) := civil_from_days (t / msPerDay) in
  let tod := t mod msPerDay in
  year_string y +:+ "-" +:+ pad 2 m +:+ "-" +:+ pad 2 d +:+ "T"
    +:+ pad 2 (tod / 3600000) +:+ ":" +:+ pad 2 (tod / 60000 mod 60)
    +:+ ":" +:+ pad 2 (tod / 1000 mod 60) +:+ "." +:+ pad 3 (tod mod 1000)
    +:+ "Z".

End Date.

(** [s.replace(pattern, replacement)] with a string pattern: the first
    occurrence only. *)
Fixpoint replace (pattern replacement s : string) : string :=
  if String.prefix pattern s then
    replacement +:+ String.substring (String.length pattern) (String.length s) s
  else
    match s with
    | EmptyString => EmptyString
    | String c rest => String c (replace pattern replacement rest)
    end.

(** [s.slice(0, n)]. *)
Definition slice0 (n : nat) (s : string) : string := String.substring 0 n s.

(** The ingestion timestamp of [fetchData]:
    [new Date().toISOString().replace("T", ", ").slice(0, 16)]. *)
Definition ingestionTimestamp (now : Z) : string :=
  slice0 16 (replace "T" ", " (Date.toISOString now)).


(** ** Data model *)

(** An entry of [campsites.json].  [lastUpdate] is kept in the file as the
    ISO text written by [toISOString]; [new Date(c.lastUpdate)] reads it
    back to the same instant, so the model keeps the instant (milliseconds
    since the epoch).  [None] is an absent or [null] field. *)
Record Campsite : Type := mkCampsite {
  code : string;
  name : string;
  country : string;
  region : string;
  lastUpdate : option Z
}.

(** A raw listing of the search response. *)
Record Listing : Type := mkListing {
  item_id : ItemId;
  item_name : JSValue;
  item_category : JSValue;
  item_categorySlug : JSValue;
  item_maxPersons : JSValue;
  item_bedrooms : JSValue;
  item_aircondition : JSValue;
  item_dogAllowed : JSValue;
  item_priceBeforeFeesBeforeDiscount : JSValue;
  item_priceBeforeFeesAfterDiscount : JSValue;
  item_size : JSValue;
  item_arrivalDate : JSValue;
  item_duration : JSValue
}.

(** A record of [results.json], as [fetchData] builds it. *)
Record ResultRecord : Type := mkResultRecord {
  rec_id : ItemId;
  rec_name : JSValue;
  rec_category : JSValue;
  rec_categorySlug : JSValue;
  rec_maxPersons : JSValue;
  rec_bedrooms : JSValue;
  rec_aircondition : JSValue;
  rec_dogAllowed : JSValue;
  rec_priceBeforeFeesBeforeDiscount : JSValue;
  rec_priceBeforeFeesAfterDiscount : JSValue;
  rec_size : JSValue;
  rec_arrivalDate : JSValue;
  rec_duration : JSValue;
  supplier : JSValue;
  campsite : string;
  requestedDate : string;
  website : string;
  timestamp : string
}.

(** The body of a search request ([createRequestBody]). *)
Record Persons : Type := mkPersons { adults : Z; children : list Z }.

Record Filters : Type := mkFilters {
  site_facilities : list string;
  accommodation_categories : list string;
  accommodation_bedrooms : list Z
}.

Record Parameters : Type := mkParameters {
  map_flag : bool;
  includeTopFacilities : bool;
  funnel : string;
  param_date : string;
  param_duration : Z;
  param_country : string;
  param_area : string;
  persons : Persons;
  param_site : string
}.

Record Meta : Type := mkMeta {
  limit : Z;
  order : string;
  orderBy : string;
  orderSettingsLabel : string;
  page : Z
}.

Record RequestBody : Type := mkRequestBody {
  filters : Filters;
  parameters : Parameters;
  meta : Meta
}.

(** [response.data] of a search: [rawData.data] with its two arrays, each
    possibly absent. *)
Record SearchData : Type := mkSearchData {
  accommodations : option (list Listing);
  alternatives : option (list Listing)
}.

Record RawData : Type := mkRawData { data : option SearchData }.

(** ** Files *)

Inductive Path : Type :=
| DATA_FILE
| CAMPSITES_FILE
| DATES_FILE
| SUPPLIER_CACHE_FILE.

Global Instance Path_eq_dec : EqDecision Path.
Proof. solve_decision. Defined.

Inductive File (A : Type) : Type :=
| Missing
| Unreadable
| Blank
| Content (doc : A).
Arguments Missing {A}.
Arguments Unreadable {A}.
Arguments Blank {A}.
Arguments Content {A} doc.

(** The type of the document each file holds. *)
Definition Document (p : Path) : Type :=
  match p with
  | DATA_FILE => gmap string ResultRecord
  | CAMPSITES_FILE => list Campsite
  | DATES_FILE => list (string * string)
  | SUPPLIER_CACHE_FILE => gmap string JSValue
  end.

(** ** The world: files and the trace of effects *)

Inductive Event : Type :=
| EvPost (body : RequestBody)      (* axios.post to the search endpoint *)
| EvGet (itemId : ItemId)          (* axios.get of an accommodation card *)
| EvWrite (p : Path)               (* fs.writeFileSync *)
| EvDelay (ms : Z)                 (* delay(ms) *)
| EvJitter (base span : Z).        (* delay(base + Math.random() * span) *)

(** [trace] lists the events most recent first. *)
Record World : Type := mkWorld {
  data_file : File (gmap string ResultRecord);
  campsites_file : File (list Campsite);
  dates_file : File (list (string * string));
  supplier_cache_file : File (gmap string JSValue);
  trace : list Event
}.

(** What the outside world answers.  A network request is answered
    according to the number of requests made before it; [None] is a
    request that throws (or, for a search, a response without a body).
    The clock is read at the current length of the trace. *)
Record Env : Type := mkEnv {
  search_api : nat -> RequestBody -> option RawData;
  card_api : nat -> ItemId -> option JSValue;
  clock : nat -> Z
}.

Definition is_request (e : Event) : bool :=
  match e with
  | EvPost _ | EvGet _ => true
  | _ => false
  end.

Definition is_write (p : Path) (e : Event) : bool :=
  match e with
  | EvWrite q => bool_decide (p = q)
  | _ => false
  end.

(** Number of network requests made so far. *)
Definition net_calls (w : World) : nat :=
  length (List.filter is_request (trace w)).

(** Number of writes of file [p] so far. *)
Definition writes_of (p : Path) (w : World) : nat :=
  length (List.filter (is_write p) (trace w)).

Definition emit (e : Event) (w : World) : World :=
  mkWorld (data_file w) (campsites_file w) (dates_file w)
          (supplier_cache_file w) (e :: trace w).

Definition delay (ms : Z) (w : World) : World := emit (EvDelay ms) w.

(** [delay(base + Math.random() * span)]. *)
Definition delay_random (base span : Z) (w : World) : World :=
  emit (EvJitter base span) w.

Definition now (env : Env) (w : World) : Z := clock env (length (trace w)).

Definition read_file (p : Path) (w : World) : File (Document p) :=
  match p with
  | DATA_FILE => data_file w
  | CAMPSITES_FILE => campsites_file w
  | DATES_FILE => dates_file w
  | SUPPLIER_CACHE_FILE => supplier_cache_file w
  end.

Definition write_file (p : Path) : Document p -> World -> World :=
  match p with
  | DATA_FILE => fun d w =>
      mkWorld (Content d) (campsites_file w) (dates_file w)
              (supplier_cache_file w) (trace w)
  | CAMPSITES_FILE => fun d w =>
      mkWorld (data_file w) (Content d) (dates_file w)
              (supplier_cache_file w) (trace w)
  | DATES_FILE => fun d w =>
      mkWorld (data_file w) (campsites_file w) (Content d)
              (supplier_cache_file w) (trace w)
  | SUPPLIER_CACHE_FILE => fun d w =>
      mkWorld (data_file w) (campsites_file w) (dates_file w)
              (Content d) (trace w)
  end.

(** What [loadFile] returns: the parsed document, the object [{}] parsed
    from the text ["{}"], or the caller's default where that is a
    placeholder of type [D]. *)
Inductive Loaded (A D : Type) : Type :=
| Doc (a : A)
| EmptyObject
| Placeholder (d : D).
Arguments Doc {A D} a.
Arguments EmptyObject {A D}.
Arguments Placeholder {A D} d.

(** [loadFile(filePath, defaultValue = {})]. *)
Definition loadFile {D : Type} (filePath : Path) (w : World)
    (defaultValue : Loaded (Document filePath) D) : Loaded (Document filePath) D :=
  match read_file filePath w with
  | Missing => defaultValue                 (* !fs.existsSync(filePath) *)
  | Unreadable => defaultValue              (* catch (error) *)
  | Blank => EmptyObject                    (* JSON.parse("" || "{}") *)
  | Content doc => Doc doc
  end.

(** [saveFile(filePath, data)]. *)
Definition saveFile (filePath : Path) (data : Document filePath) (w : World) : World :=
  emit (EvWrite filePath) (write_file filePath data w).

(** A loaded object used as a map; [{}] is the empty map. *)
Definition as_object {K A} `{Countable K}
    (v : Loaded (gmap K A) Empty_set) : gmap K A :=
  match v with
  | Doc m => m
  | EmptyObject => ∅
  | Placeholder d => match d with end
  end.

(** [Object.entries] of the loaded date registry. *)
Definition Object_entries (v : Loaded (list (string * string)) Empty_set)
    : list (string * string) :=
  match v with
  | Doc entries => entries
  | EmptyObject => []
  | Placeholder d => match d with end
  end.

(** ** Configuration *)

Definition REFRESH_INTERVAL : Z := 48 * 60 * 60 * 1000.
Definition maxRetries : nat := 3.
Definition WEBSITE_NAME : string := "ALLCAMPS".

(** ** Supplier cache: [fetchSupplierData] *)

(** The retry loop [while (attempt < maxRetries) { try ... catch ... }].
    [fuel] bounds the number of iterations; [maxRetries] is enough
    ([supplierAttempts_fuel]).  Falling out of the loop returns
    [undefined]. *)
Fixpoint supplierAttempts (env : Env) (itemId : ItemId)
    (supplierCache : gmap string JSValue) (fuel attempt : nat) (w : World)
    : World * JSValue :=
  match fuel with
  | O => (w, JUndefined)
  | S fuel' =>
      if (attempt <? maxRetries)%nat then
        let w1 := delay_random 0 200 w in
        let w2 := emit (EvGet itemId) w1 in
        match card_api env (net_calls w1) itemId with
        | Some response_data =>
            let supplier := js_or (optional_get response_data "supplier") JNull in
            let supplierCache' := <[ToString itemId := supplier]> supplierCache in
            (saveFile SUPPLIER_CACHE_FILE supplierCache' w2, supplier)
        | None =>
            let attempt' := S attempt in
            if (maxRetries <=? attempt')%nat then (w2, JNull)
            else supplierAttempts env itemId supplierCache fuel' attempt'
                   (delay 1000 w2)
        end
      else (w, JUndefined)
  end.

Definition fetchSupplierData (env : Env) (itemId : ItemId) (w : World)
    : World * JSValue :=
  let supplierCache := as_object (loadFile SUPPLIER_CACHE_FILE w EmptyObject) in
  (* supplierCache[itemId]: undefined when the key is absent *)
  let cached := default JUndefined (supplierCache !! ToString itemId) in
  if truthy cached then (w, cached)
  else supplierAttempts env itemId supplierCache maxRetries 0 w.

(** ** Remote fetch and listing transformer: [fetchData] *)

Definition createRequestBody (date : string) (campsite : Campsite) : RequestBody :=
  {| filters := {| site_facilities := [];
                   accommodation_categories := ["mobile-home"];
                   accommodation_bedrooms := [] |};
     parameters := {| map_flag := false;
                      includeTopFacilities := true;
                      funnel := "camping";
                      param_date := date;
                      param_duration := 7;
                      param_country := country campsite;
                      param_area := region campsite;
                      persons := {| adults := 2; children := [] |};
                      param_site := name campsite |};
     meta := {| limit := 10; order := "desc"; orderBy := "popular";
                orderSettingsLabel := "popular-desc"; page := 1 |} |}.

(** The key of a record: [`${campsite.code}_from_${WEBSITE_NAME}_at_${date}_#${item.id}`]. *)
Definition compositeKey (campsiteCode source date : string) (itemId : ItemId) : string :=
  campsiteCode +:+ "_from_" +:+ source +:+ "_at_" +:+ date +:+ "_#" +:+ ToString itemId.

Definition transform (item : Listing) (supplier : JSValue) (campsite : Campsite)
    (date timestamp : string) : ResultRecord :=
  {| rec_id := item_id item;
     rec_name := item_name item;
     rec_category := item_category item;
     rec_categorySlug := item_categorySlug item;
     rec_maxPersons := item_maxPersons item;
     rec_bedrooms := item_bedrooms item;
     rec_aircondition := item_aircondition item;
     rec_dogAllowed := item_dogAllowed item;
     rec_priceBeforeFeesBeforeDiscount := item_priceBeforeFeesBeforeDiscount item;
     rec_priceBeforeFeesAfterDiscount := item_priceBeforeFeesAfterDiscount item;
     rec_size := item_size item;
     rec_arrivalDate := item_arrivalDate item;
     rec_duration := item_duration item;
     supplier := supplier;
     campsite := code campsite;
     requestedDate := date;
     website := WEBSITE_NAME;
     timestamp := timestamp |}.

(** The loop [for (const item of combined)]. *)
Fixpoint transformItems (env : Env) (campsite : Campsite) (date timestamp : string)
    (combined : list Listing) (transformedData : gmap string ResultRecord)
    (w : World) : World * gmap string ResultRecord :=
  match combined with
  | [] => (w, transformedData)
  | item :: rest =>
      let '(w1, supplier) := fetchSupplierData env (item_id item) w in
      let key := compositeKey (code campsite) WEBSITE_NAME date (item_id item) in
      let transformedData' :=
        <[key := transform item supplier campsite date timestamp]> transformedData in
      transformItems env campsite date timestamp rest transformedData'
        (delay_random 0 100 w1)
  end.

(** [x || []] on an array that may be absent. *)
Definition or_empty {A} (x : option (list A)) : list A := default [] x.

(** [fetchData(body, campsite, date)]; [None] is the returned [null]. *)
Definition fetchData (env : Env) (body : RequestBody) (campsite : Campsite)
    (date : string) (w : World) : World * option (gmap string ResultRecord) :=
  let w1 := emit (EvPost body) w in
  match search_api env (net_calls w) body with
  | None => (w1, None)                                   (* axios.post throws *)
  | Some rawData =>
      match data rawData with
      | None => (w1, None)              (* rawData.data.accommodations throws *)
      | Some d =>
          let combined := or_empty (accommodations d) ++ or_empty (alternatives d) in
          let timestamp := ingestionTimestamp (now env w1) in
          let '(w2, transformedData) :=
            transformItems env campsite date timestamp combined ∅ w1 in
          (w2, Some transformedData)
      end
  end.

(** ** Scrape orchestrator: [scrapeCampsite] *)

(** [Object.assign(target, source)]: the keys of [source] win. *)
Definition Object_assign {A} (target source : gmap string A) : gmap string A :=
  source ∪ target.

(** The loop [for (const [dateName, date] of Object.entries(dates))]. *)
Fixpoint scrapeDates (env : Env) (campsiteToFetch : Campsite)
    (dates : list (string * string)) (newResults : gmap string ResultRecord)
    (w : World) : World * gmap string ResultRecord :=
  match dates with
  | [] => (w, newResults)
  | (dateName, date) :: rest =>
      let requestBody := createRequestBody date campsiteToFetch in
      let '(w1, fetched) := fetchData env requestBody campsiteToFetch date w in
      let newResults' :=
        match fetched with
        | Some d => Object_assign newResults d
        | None => newResults
        end in
      scrapeDates env campsiteToFetch rest newResults' (delay_random 1000 1000 w1)
  end.

(** The records that survive the removal step of the reconciliation. *)
Definition removeCampsite (campsiteCode : string)
    (currentResults : gmap string ResultRecord) : gmap string ResultRecord :=
  filter (fun kv => campsite kv.2 ≠ campsiteCode) currentResults.

Definition setLastUpdate (t : Z) (c : Campsite) : Campsite :=
  mkCampsite (code c) (name c) (country c) (region c) (Some t).

(** How an [async] function ends: it returns, or a [TypeError] escapes. *)
Inductive Completion : Type := Returned | TypeError.

(** [scrapeCampsite(campsiteToFetch)].  The second component is the
    caller's campsite object after the call (its [lastUpdate] is assigned
    in place). *)
Definition scrapeCampsite (env : Env) (campsiteToFetch : Campsite) (w : World)
    : World * Campsite * Completion :=
  let dates := Object_entries (loadFile DATES_FILE w EmptyObject) in
  let campsites : Loaded (list Campsite) Empty_set :=
    loadFile CAMPSITES_FILE w EmptyObject in
  let currentResults := as_object (loadFile DATA_FILE w EmptyObject) in
  let '(w1, newResults) := scrapeDates env campsiteToFetch dates ∅ w in
  let updatedResults := removeCampsite (code campsiteToFetch) currentResults in
  let updatedResults' := Object_assign updatedResults newResults in
  let w2 := saveFile DATA_FILE updatedResults' w1 in
  if (0 <? size newResults)%nat then
    let timestamp := now env w2 in
    let campsiteToFetch' := setLastUpdate timestamp campsiteToFetch in
    match campsites with
    | Doc l =>
        match list_find (fun c => code c = code campsiteToFetch) l with
        | Some (campsiteIndex, _) =>
            (saveFile CAMPSITES_FILE (alter (setLastUpdate timestamp) campsiteIndex l) w2,
             campsiteToFetch', Returned)
        | None => (w2, campsiteToFetch', Returned)
        end
    | EmptyObject => (w2, campsiteToFetch', TypeError)  (* {}.findIndex *)
    | Placeholder d => match d with end
    end
  else (w2, campsiteToFetch, Returned).

(** ** Candidate selector and the HTTP endpoints *)

(** [!c.lastUpdate || new Date(c.lastUpdate) < refreshTime]. *)
Definition needsUpdate (refreshTime : Z) (c : Campsite) : bool :=
  match lastUpdate c with
  | None => true
  | Some t => t <? refreshTime
  end.

(** The selection step of [GET /scrape]. *)
Definition selectCandidate (campsites : list Campsite) (dateNow : Z) : option Campsite :=
  let refreshTime := dateNow - REFRESH_INTERVAL in
  List.find (needsUpdate refreshTime) campsites.

(** The deferred work of [GET /scrape]. *)
Definition scrapeEndpoint (env : Env) (w : World) : World * Completion :=
  match loadFile (D := Empty_set) CAMPSITES_FILE w EmptyObject with
  | Doc campsites =>
      match selectCandidate campsites (now env w) with
      | Some campsiteToFetch =>
          let '(w', _, completion) := scrapeCampsite env campsiteToFetch w in
          (w', completion)
      | None => (w, Returned)
      end
  | EmptyObject => (w, TypeError)                          (* {}.find *)
  | Placeholder d => match d with end
  end.

(** [GET /data]: the value handed to [res.json]. *)
Definition dataEndpoint (w : World) : Loaded (gmap string ResultRecord) string :=
  loadFile DATA_FILE w (Placeholder "No data found. Please run a scrape first.").

(** [GET /getCampsites]. *)
Definition getCampsitesEndpoint (w : World) : Loaded (list Campsite) string :=
  loadFile CAMPSITES_FILE w
    (Placeholder "No campsites found. Please check setup configuration.").

(** [initializeSupplierCache()]. *)
Definition initializeSupplierCache (w : World) : World :=
  match supplier_cache_file w with
  | Missing => saveFile SUPPLIER_CACHE_FILE ∅ w
  | _ => w
  end.



(** [GET /forceScrape?campsite=CODE]: the HTTP status and the deferred
    work. *)
Definition forceScrapeEndpoint (env : Env) (campsiteCode : option string) (w : World)
    : Z * World * Completion :=
  match loadFile (D := Empty_set) CAMPSITES_FILE w EmptyObject with
  | Doc campsites =>
      match campsiteCode with
      | None => (400, w, Returned)
      | Some "" => (400, w, Returned)
      | Some campsiteCode' =>
          match List.find (fun c => String.eqb (code c) campsiteCode') campsites with
          | None => (404, w, Returned)
          | Some campsiteToScrape =>
              let '(w', _, completion) := scrapeCampsite env campsiteToScrape w in
              (200, w', completion)
          end
      end
  | EmptyObject => (500, w, TypeError)                     (* {}.find *)
  | Placeholder d => match d with end
  end.

(** ** Vocabulary of the statements *)

(** The events a call adds to the trace. *)
Definition extends (w w' : World) (evs : list Event) : Prop :=
  trace w' = evs ++ trace w.

Definition same_stores (w w' : World) : Prop :=
  data_file w' = data_file w ∧ campsites_file w' = campsites_file w ∧
  dates_file w' = dates_file w ∧ supplier_cache_file w' = supplier_cache_file w.

(** Events of a supplier lookup: delays, card requests and writes of the
    supplier cache. *)
Definition supplier_event (e : Event) : bool :=
  match e with
  | EvGet _ | EvDelay _ | EvJitter _ _ | EvWrite SUPPLIER_CACHE_FILE => true
  | _ => false
  end.

(** Events of the date loop: everything but writes of the result store and
    of the registry. *)
Definition loop_event (e : Event) : bool :=
  match e with
  | EvWrite DATA_FILE | EvWrite CAMPSITES_FILE | EvWrite DATES_FILE => false
  | _ => true
  end.

Definition is_post (e : Event) : bool :=
  match e with
  | EvPost _ => true
  | _ => false
  end.

Definition count (f : Event -> bool) (evs : list Event) : nat :=
  length (List.filter f evs).

(** The supplier cache as [fetchSupplierData] sees it. *)
Definition supplierCacheOf (w : World) : gmap string JSValue :=
  as_object (loadFile SUPPLIER_CACHE_FILE w EmptyObject).

(** The result store as [scrapeCampsite] sees it. *)
Definition currentResultsOf (w : World) : gmap string ResultRecord :=
  as_object (loadFile DATA_FILE w EmptyObject).

(** The value of [supplierCache[itemId]]. *)
Definition cachedSupplier (w : World) (itemId : ItemId) : JSValue :=
  default JUndefined (supplierCacheOf w !! ToString itemId).

(** A search request that yields no data: [axios.post] throws, or the
    response has no [data] object. *)
Definition searchFails (env : Env) (n : nat) (body : RequestBody) : bool :=
  match search_api env n body with
  | Some (mkRawData (Some _)) => false
  | _ => true
  end.

(** The listings of a response: [[...accommodations, ...alternatives]]. *)
Definition combinedListings (d : SearchData) : list Listing :=
  or_empty (accommodations d) ++ or_empty (alternatives d).

(** A record stored under the composite key of its own fields. *)
Definition keyed (k : string) (r : ResultRecord) : Prop :=
  k = compositeKey (campsite r) (website r) (requestedDate r) (rec_id r).

(** The date entries [scrapeCampsite] iterates over. *)
Definition datesOf (w : World) : list (string * string) :=
  Object_entries (loadFile DATES_FILE w EmptyObject).

(** The "new results" mapping of a scrape started in [w]. *)
Definition newResultsOf (env : Env) (c : Campsite) (w : World) : gmap string ResultRecord :=
  (scrapeDates env c (datesOf w) ∅ w).2.

(** A campsite is stale at [dateNow] when it has no [lastUpdate] or one
    that is more than 48 hours old. *)
Definition isStale (dateNow : Z) (c : Campsite) : Prop :=
  match lastUpdate c with
  | None => True
  | Some t => t < dateNow - 172800000
  end.

Definition hours (n : Z) : Z := n * 3600000.

(** ** Sample data *)

Definition campsiteABC : Campsite :=
  mkCampsite "ABC" "Camping ABC" "france" "provence" None.

Definition listing42 : Listing :=
  mkListing (IdNumber 42) (JString "Mobile home") (JString "mobile-home")
    (JString "mobile-home") (JNumber 4) (JNumber 2) (JBool false) (JBool true)
    (JNumber 700) (JNumber 650) (JNumber 32) (JString "2025-06-01") (JNumber 7).

Definition acme : JSValue := JObject [("name", JString "Acme")].

(** 2025-06-01T12:34:56.789Z. *)
Definition sampleInstant : Z := 1748781296789.

(** An upstream that answers every search with [listing42] and every card
    request with the supplier [acme]. *)
Definition upstreamUp : Env :=
  {| search_api := fun _ _ => Some (mkRawData (Some (mkSearchData (Some [listing42]) None)));
     card_api := fun _ _ => Some (JObject [("supplier", acme)]);
     clock := fun _ => sampleInstant |}.

(** An upstream whose every request fails. *)
Definition upstreamDown : Env :=
  {| search_api := fun _ _ => None;
     card_api := fun _ _ => None;
     clock := fun _ => sampleInstant |}.

(** One campsite, one date, empty result store and supplier cache. *)
Definition seededWorld : World :=
  {| data_file := Content ∅;
     campsites_file := Content [campsiteABC];
     dates_file := Content [("week1", "2025-06-01")];
     supplier_cache_file := Content ∅;
     trace := [] |}.

(** The supplier cache holds [null] for item 42. *)
Definition cachedNullWorld : World :=
  {| data_file := Content ∅;
     campsites_file := Content [campsiteABC];
     dates_file := Content [("week1", "2025-06-01")];
     supplier_cache_file := Content {[ "42" := JNull ]};
     trace := [] |}.

Definition campsiteXYZ : Campsite :=
  mkCampsite "XYZ" "Camping XYZ" "italy" "toscana" (Some 1748000000000).

Definition listing7 : Listing :=
  mkListing (IdNumber 7) (JString "Lodge tent") (JString "tent")
    (JString "tent") (JNumber 5) (JNumber 2) (JBool false) (JBool false)
    (JNumber 500) (JNumber 500) (JNumber 25) (JString "2025-06-01") (JNumber 7).

(** A record of campsite XYZ. *)
Definition recordXYZ : ResultRecord :=
  transform listing7 JNull campsiteXYZ "2025-06-01" "2025-05-23, 11:3".

(** A record of campsite ABC left by an earlier scrape. *)
Definition staleRecordABC : ResultRecord :=
  transform listing7 JNull campsiteABC "2025-05-01" "2025-05-20, 09:1".

(** A result store with a record of XYZ and an old record of ABC. *)
Definition mixedWorld : World :=
  {| data_file := Content {[ "XYZ_from_ALLCAMPS_at_2025-06-01_#7" := recordXYZ;
                             "ABC_from_ALLCAMPS_at_2025-05-01_#7" := staleRecordABC ]};
     campsites_file := Content [campsiteXYZ; campsiteABC];
     dates_file := Content [("week1", "2025-06-01")];
     supplier_cache_file := Content ∅;
     trace := [] |}.

(** A result store in which a record of XYZ sits under the key that the
    scrape of ABC produces for item 42 on 2025-06-01. *)
Definition collidingWorld : World :=
  {| data_file := Content {[ "ABC_from_ALLCAMPS_at_2025-06-01_#42" := recordXYZ ]};
     campsites_file := Content [campsiteXYZ; campsiteABC];
     dates_file := Content [("week1", "2025-06-01")];
     supplier_cache_file := Content ∅;
     trace := [] |}.

(** The result store exists and its text is empty. *)
Definition blankWorld : World :=
  {| data_file := Blank;
     campsites_file := Blank;
     dates_file := Content [("week1", "2025-06-01")];
     supplier_cache_file := Content ∅;
     trace := [] |}.

(** Two date entries. *)
Definition twoDatesWorld : World :=
  {| data_file := Content ∅;
     campsites_file := Content [campsiteABC];
     dates_file := Content [("week1", "2025-06-01"); ("week2", "2025-06-08")];
     supplier_cache_file := Content ∅;
     trace := [] |}.

Definition sampleSearchData : SearchData := mkSearchData (Some [listing42]) None.

(** A registry with a campsite updated 10 hours before [sampleInstant], one
    updated 72 hours before, and one never updated. *)
Definition campsite10h : Campsite :=
  mkCampsite "TEN" "Camping Ten" "france" "bretagne" (Some (sampleInstant - hours 10)).

Definition campsite72h : Campsite :=
  mkCampsite "OLD" "Camping Old" "france" "bretagne" (Some (sampleInstant - hours 72)).

Definition sampleRegistry : list Campsite := [campsite10h; campsite72h; campsiteABC].

(** Every campsite of the registry was updated 10 hours ago. *)
Definition freshWorld : World :=
  {| data_file := Content ∅;
     campsites_file := Content [campsite10h];
     dates_file := Content [("week1", "2025-06-01")];
     supplier_cache_file := Content ∅;
     trace := [] |}.


(** ** Vocabulary of the further properties *)

(** Every resolved (truthy) entry of the supplier cache of [w] is still
    there, with the same value, in [w']. *)
Definition cache_kept (w w' : World) : Prop :=
  ∀ key u, supplierCacheOf w !! key = Some u -> truthy u = true ->
           supplierCacheOf w' !! key = Some u.

(** An upstream whose first request fails and whose later requests
    answer. *)
Definition upstreamFlaky : Env :=
  {| search_api := fun _ _ => Some (mkRawData (Some (mkSearchData (Some [listing42]) None)));
     card_api := fun n _ => if (n =? 0)%nat then None
                            else Some (JObject [("supplier", acme)]);
     clock := fun _ => sampleInstant |}.

(** The supplier cache holds [acme] for item 42. *)
Definition cachedAcmeWorld : World :=
  {| data_file := Content ∅;
     campsites_file := Content [campsiteABC];
     dates_file := Content [("week1", "2025-06-01")];
     supplier_cache_file := Content {[ "42" := acme ]};
     trace := [] |}.

(** Listing 42 again, under another name, as an alternative. *)
Definition listing42alt : Listing :=
  mkListing (IdNumber 42) (JString "Mobile home (alternative)") (JString "mobile-home")
    (JString "mobile-home") (JNumber 6) (JNumber 3) (JBool true) (JBool true)
    (JNumber 900) (JNumber 800) (JNumber 40) (JString "2025-06-02") (JNumber 7).

Definition duplicateSearchData : SearchData :=
  mkSearchData (Some [listing42]) (Some [listing42alt]).

(** An upstream that offers item 42 both as an accommodation and as an
    alternative. *)
Definition upstreamDuplicate : Env :=
  {| search_api := fun _ _ => Some (mkRawData (Some duplicateSearchData));
     card_api := fun _ _ => Some (JObject [("supplier", acme)]);
     clock := fun _ => sampleInstant |}.


Definition is_delay (e : Event) : bool :=
  match e with
  | EvDelay _ | EvJitter _ _ => true
  | _ => false
  end.

(** Pacing of a chronological list of events: no network request follows
    another one without a [delay] in between.  [ready] tells whether a
    request may be sent now; the result is the same information after the
    events, or [None] when two requests follow each other. *)
Fixpoint paced (ready : bool) (evs : list Event) : option bool :=
  match evs with
  | [] => Some ready
  | e :: rest =>
      if is_request e then (if ready then paced false rest else None)
      else if is_delay e then paced true rest
      else paced ready rest
  end.

(** The events added between [w] and [w'], oldest first, are paced and end
    ready for a request. *)
Definition paced_run (w w' : World) : Prop :=
  ∃ evs, extends w w' evs ∧ paced true (List.rev evs) = Some true.

(** The world in which [scrapeCampsite] has saved the result store. *)
Definition afterResultsSaved (env : Env) (c : Campsite) (w : World) : World :=
  saveFile DATA_FILE
    (Object_assign (removeCampsite (code c) (currentResultsOf w)) (newResultsOf env c w))
    (scrapeDates env c (datesOf w) ∅ w).1.

(** The registry file cannot be used as an array: it is missing,
    unreadable or empty, and [loadFile] yields [{}]. *)
Definition registryUnusable (w : World) : Prop :=
  match campsites_file w with
  | Content _ => False
  | _ => True
  end.

(** No campsite registry on disk. *)
Definition noRegistryWorld : World :=
  {| data_file := Content {[ "XYZ_from_ALLCAMPS_at_2025-06-01_#7" := recordXYZ ]};
     campsites_file := Missing;
     dates_file := Content [("week1", "2025-06-01")];
     supplier_cache_file := Content ∅;
     trace := [] |}.

(** An upstream whose searches succeed with no listing. *)
Definition upstreamEmpty : Env :=
  {| search_api := fun _ _ => Some (mkRawData (Some (mkSearchData (Some []) None)));
     card_api := fun _ _ => None;
     clock := fun _ => sampleInstant |}.

(** The registry of [sampleRegistry] on disk. *)
Definition registryWorld : World :=
  {| data_file := Content ∅;
     campsites_file := Content sampleRegistry;
     dates_file := Content [("week1", "2025-06-01")];
     supplier_cache_file := Content ∅;
     trace := [] |}.


(** An upstream that answers the same whenever it is asked: searches and
    card requests do not depend on the request number (a card request
    only on the text of the item id, which is all the URL carries), and
    the clock stands still. *)
Definition steady (env : Env) : Prop :=
  (∀ n m body, search_api env n body = search_api env m body) ∧
  (∀ n m i j, ToString i = ToString j -> card_api env n i = card_api env m j) ∧
  (∀ n m, clock env n = clock env m).

(** The supplier a steady upstream gives for an item id. *)
Definition expectedSupplier (env : Env) (itemId : ItemId) : JSValue :=
  match card_api env 0 itemId with
  | Some response_data => js_or (optional_get response_data "supplier") JNull
  | None => JNull
  end.

(** The resolved entries of the supplier cache are what the upstream
    answers. *)
Definition coherent (env : Env) (w : World) : Prop :=
  ∀ i u, supplierCacheOf w !! ToString i = Some u -> truthy u = true ->
         u = expectedSupplier env i.

(** The records of a list of listings, as a function of the upstream. *)
Definition pureItems (env : Env) (c : Campsite) (date ts : string)
    (combined : list Listing) (acc : gmap string ResultRecord)
    : gmap string ResultRecord :=
  fold_left
    (fun acc item =>
       <[compositeKey (code c) WEBSITE_NAME date (item_id item)
         := transform item (expectedSupplier env (item_id item)) c date ts]> acc)
    combined acc.

Definition pureFetch (env : Env) (c : Campsite) (date : string)
    : option (gmap string ResultRecord) :=
  match search_api env 0 (createRequestBody date c) with
  | Some (mkRawData (Some d)) =>
      Some (pureItems env c date (ingestionTimestamp (clock env 0))
              (combinedListings d) ∅)
  | _ => None
  end.

(** The new results of a scrape, as a function of the upstream and of the
    date entries. *)
Fixpoint pureDates (env : Env) (c : Campsite) (dates : list (string * string))
    (acc : gmap string ResultRecord) : gmap string ResultRecord :=
  match dates with
  | [] => acc
  | (_, date) :: rest =>
      pureDates env c rest
        match pureFetch env c date with
        | Some d => Object_assign acc d
        | None => acc
        end
  end.

(** Two campsite objects that differ at most in [lastUpdate]. *)
Definition same_site (c c' : Campsite) : Prop :=
  code c' = code c ∧ name c' = name c ∧ country c' = country c ∧ region c' = region c.

(** * Properties *)

(** ** Dates and timestamps *)

Example toISOString_sample :
  Date.toISOString sampleInstant = "2025-06-01T12:34:56.789Z".
Proof. vm_compute. reflexivity. Qed.

Example toISOString_epoch :
  Date.toISOString 0 = "1970-01-01T00:00:00.000Z".
Proof. vm_compute. reflexivity. Qed.

Example toISOString_leap_day :
  Date.toISOString 951782400000 = "2000-02-29T00:00:00.000Z".
Proof. vm_compute. reflexivity. Qed.

Example toISOString_before_epoch :
  Date.toISOString (-1) = "1969-12-31T23:59:59.999Z".
Proof. vm_compute. reflexivity. Qed.

Example replace_first_only : replace "T" ", " "aTbTc" = "a, bTc".
Proof. reflexivity. Qed.

(** ** Worlds, traces and counters *)

Lemma count_app f evs1 evs2 : count f (evs1 ++ evs2) = (count f evs1 + count f evs2)%nat.
Proof. unfold count. now rewrite List.filter_app, length_app. Qed.

Lemma count_none f evs : Forall (fun e => f e = false) evs -> count f evs = 0%nat.
Proof.
  unfold count. induction 1 as [|e evs He _ IH]; simpl; [reflexivity|].
  now rewrite He.
Qed.

Lemma extends_refl w : extends w w [].
Proof. reflexivity. Qed.

Lemma extends_trans w1 w2 w3 evs1 evs2 :
  extends w1 w2 evs1 -> extends w2 w3 evs2 -> extends w1 w3 (evs2 ++ evs1).
Proof. unfold extends. intros H1 H2. now rewrite H2, H1, app_assoc. Qed.

Lemma extends_emit e w : extends w (emit e w) [e].
Proof. reflexivity. Qed.

Lemma extends_net_calls w w' evs :
  extends w w' evs -> net_calls w' = (count is_request evs + net_calls w)%nat.
Proof. unfold extends, net_calls. intros ->. apply count_app. Qed.

Lemma extends_writes_of p w w' evs :
  extends w w' evs -> writes_of p w' = (count (is_write p) evs + writes_of p w)%nat.
Proof. unfold extends, writes_of. intros ->. apply count_app. Qed.

Lemma same_stores_refl w : same_stores w w.
Proof. now repeat split. Qed.

Lemma same_stores_emit e w : same_stores w (emit e w).
Proof. now repeat split. Qed.

Lemma supplier_event_loop e : supplier_event e = true -> loop_event e = true.
Proof. destruct e as [| |[]| |]; simpl; congruence. Qed.

Lemma supplier_event_not_post e : supplier_event e = true -> is_post e = false.
Proof. destruct e as [| |[]| |]; simpl; congruence. Qed.

Lemma loop_event_not_write_data e : loop_event e = true -> is_write DATA_FILE e = false.
Proof. destruct e as [| |[]| |]; simpl; congruence. Qed.

Lemma loop_event_not_write_campsites e :
  loop_event e = true -> is_write CAMPSITES_FILE e = false.
Proof. destruct e as [| |[]| |]; simpl; congruence. Qed.

(** ** [loadFile] and [saveFile] *)


Lemma extends_saveFile p doc w : extends w (saveFile p doc w) [EvWrite p].
Proof. now destruct p. Qed.

(** ** The supplier cache *)

(** Outcome of the retry loop: either a lookup succeeded, its supplier was
    stored and returned, or no lookup succeeded and no file changed. *)
Lemma supplierAttempts_spec env itemId cache fuel attempt w :
  let '(w', v) := supplierAttempts env itemId cache fuel attempt w in
  data_file w' = data_file w ∧ campsites_file w' = campsites_file w ∧
  dates_file w' = dates_file w ∧
  (∃ evs, extends w w' evs ∧ Forall (fun e => supplier_event e = true) evs) ∧
  ((supplier_cache_file w' = supplier_cache_file w ∧ (v = JNull ∨ v = JUndefined) ∧
    writes_of SUPPLIER_CACHE_FILE w' = writes_of SUPPLIER_CACHE_FILE w)
   ∨ (∃ n response_data,
        (net_calls w <= n < net_calls w')%nat ∧
        card_api env n itemId = Some response_data ∧
        v = js_or (optional_get response_data "supplier") JNull ∧
        supplier_cache_file w' = Content (<[ToString itemId := v]> cache))).
Proof.
  revert attempt w. induction fuel as [|fuel IH]; intros attempt w;
    cbn [supplierAttempts].
  - repeat split; [exists []; split; [apply extends_refl | constructor] |].
    left. repeat split. now right.
  - destruct (attempt <? maxRetries)%nat.
    2:{ repeat split; [exists []; split; [apply extends_refl | constructor] |].
        left. repeat split. now right. }
    destruct (card_api env (net_calls (delay_random 0 200 w)) itemId)
      as [response_data|] eqn:Hcard.
    + repeat split.
      * exists [EvWrite SUPPLIER_CACHE_FILE; EvGet itemId; EvJitter 0 200].
        split; [reflexivity | repeat constructor].
      * right. exists (net_calls (delay_random 0 200 w)), response_data.
        split; [unfold net_calls; cbn; lia|]. repeat split. exact Hcard.
    + destruct (maxRetries <=? S attempt)%nat.
      * repeat split.
        -- exists [EvGet itemId; EvJitter 0 200]. split; [reflexivity | repeat constructor].
        -- left. repeat split. now left.
      * specialize (IH (S attempt) (delay 1000 (emit (EvGet itemId) (delay_random 0 200 w)))).
        destruct (supplierAttempts env itemId cache fuel (S attempt) _) as [w' v].
        destruct IH as (Hd & Hc & Hdt & (evs & Hext & Hevs) & Hout).
        split; [exact Hd|]. split; [exact Hc|]. split; [exact Hdt|]. split.
        -- exists (evs ++ [EvDelay 1000; EvGet itemId; EvJitter 0 200]). split.
           ++ unfold extends in *. rewrite Hext. simpl. now rewrite <- app_assoc.
           ++ apply Forall_app. split; [assumption | repeat constructor].
        -- destruct Hout as [Hquiet | (n & response_data & Hn & Hrest)].
           ++ left. exact Hquiet.
           ++ right. exists n, response_data. split; [|exact Hrest].
              revert Hn. unfold net_calls. cbn. lia.
Qed.


Lemma net_calls_delay_random base span w : net_calls (delay_random base span w) = net_calls w.
Proof. reflexivity. Qed.

Lemma net_calls_delay ms w : net_calls (delay ms w) = net_calls w.
Proof. reflexivity. Qed.

Lemma net_calls_emit_get itemId w : net_calls (emit (EvGet itemId) w) = S (net_calls w).
Proof. reflexivity. Qed.

Lemma net_calls_emit_post body w : net_calls (emit (EvPost body) w) = S (net_calls w).
Proof. reflexivity. Qed.

(** Brings the request counters of a hypothesis to the form
    [S (... (net_calls w))]. *)
Ltac count_requests_in H :=
  rewrite ?net_calls_delay_random, ?net_calls_delay, ?net_calls_emit_get,
    ?net_calls_emit_post in H.

(** [maxRetries] iterations are enough: more fuel changes nothing. *)
Lemma supplierAttempts_fuel env itemId cache fuel fuel' attempt w :
  (maxRetries - attempt <= fuel)%nat -> (maxRetries - attempt <= fuel')%nat ->
  supplierAttempts env itemId cache fuel attempt w
  = supplierAttempts env itemId cache fuel' attempt w.
Proof.
  revert fuel' attempt w.
  induction fuel as [|fuel IH]; intros [|fuel'] attempt w Hf Hf';
    cbn [supplierAttempts]; try reflexivity.
  - destruct (Nat.ltb_spec attempt maxRetries); [lia | reflexivity].
  - destruct (Nat.ltb_spec attempt maxRetries); [lia | reflexivity].
  - destruct (Nat.ltb_spec attempt maxRetries); [|reflexivity].
    destruct (card_api env _ itemId); [reflexivity|].
    destruct (Nat.leb_spec maxRetries (S attempt)); [reflexivity|].
    apply IH; lia.
Qed.

(** The loop is left through a [return]: its value is never [undefined]. *)
Lemma supplierAttempts_returns env itemId cache fuel attempt w :
  (attempt < maxRetries)%nat -> (maxRetries - attempt <= fuel)%nat ->
  (supplierAttempts env itemId cache fuel attempt w).2 ≠ JUndefined.
Proof.
  revert attempt w. induction fuel as [|fuel IH]; intros attempt w Ha Hf;
    cbn [supplierAttempts]; [lia|].
  destruct (Nat.ltb_spec attempt maxRetries); [|lia].
  destruct (card_api env _ itemId) as [response_data|].
  - cbn [snd]. unfold js_or.
    destruct (truthy (optional_get response_data "supplier")) eqn:Ht; [|discriminate].
    intros Hu. rewrite Hu in Ht. discriminate.
  - destruct (Nat.leb_spec maxRetries (S attempt)); [discriminate|].
    apply IH; lia.
Qed.

Lemma fetchSupplierData_hit env itemId w :
  truthy (cachedSupplier w itemId) = true ->
  fetchSupplierData env itemId w = (w, cachedSupplier w itemId).
Proof.
  intros Ht. unfold fetchSupplierData. fold (supplierCacheOf w).
  fold (cachedSupplier w itemId). now rewrite Ht.
Qed.

Lemma fetchSupplierData_miss env itemId w :
  truthy (cachedSupplier w itemId) = false ->
  fetchSupplierData env itemId w
  = supplierAttempts env itemId (supplierCacheOf w) maxRetries 0 w.
Proof.
  intros Ht. unfold fetchSupplierData. fold (supplierCacheOf w).
  fold (cachedSupplier w itemId). now rewrite Ht.
Qed.

(** A lookup whose cached value is falsy, [null] included, goes to the
    network. *)
Lemma fetchSupplierData_miss_requests env itemId w :
  truthy (cachedSupplier w itemId) = false ->
  (net_calls w < net_calls (fetchSupplierData env itemId w).1)%nat.
Proof.
  intros Ht. rewrite (fetchSupplierData_miss _ _ _ Ht).
  cbn [supplierAttempts maxRetries Nat.ltb Nat.leb].
  repeat destruct (card_api env _ itemId); cbn [fst];
    unfold net_calls; cbn; lia.
Qed.

(** What a supplier lookup may touch. *)
Lemma fetchSupplierData_frame env itemId w :
  let '(w', v) := fetchSupplierData env itemId w in
  data_file w' = data_file w ∧ campsites_file w' = campsites_file w ∧
  dates_file w' = dates_file w ∧
  ∃ evs, extends w w' evs ∧ Forall (fun e => supplier_event e = true) evs.
Proof.
  unfold fetchSupplierData.
  destruct (truthy _).
  - repeat split. exists []. split; [apply extends_refl | constructor].
  - pose proof (supplierAttempts_spec env itemId
                  (as_object (loadFile SUPPLIER_CACHE_FILE w EmptyObject))
                  maxRetries 0 w) as H.
    destruct (supplierAttempts _ _ _ _ _ _) as [w' v].
    destruct H as (Hd & Hc & Hdt & Hev & _). auto.
Qed.

(** C2 (the code departs from the claim at a cached [null]).  Claim: an
    item id present in the supplier cache, also with the value [null], is
    resolved with no network call and the cached value is returned.  The
    code tests the cached value for truthiness, so at the cache
    [{"42": null}] the lookup of item 42 is a miss: one card request is
    sent, its supplier is returned instead of the cached [null] and the
    entry is overwritten. *)
Theorem cached_null_is_fetched_again :
  supplierCacheOf cachedNullWorld !! ToString (IdNumber 42) = Some JNull ∧
  net_calls cachedNullWorld = 0%nat ∧
  net_calls (fetchSupplierData upstreamUp (IdNumber 42) cachedNullWorld).1 = 1%nat ∧
  (fetchSupplierData upstreamUp (IdNumber 42) cachedNullWorld).2 = acme ∧
  supplierCacheOf (fetchSupplierData upstreamUp (IdNumber 42) cachedNullWorld).1
    !! ToString (IdNumber 42) = Some acme.
Proof. vm_compute. repeat split; reflexivity. Qed.

(** C5.  Claim: when the supplier lookup of an item id fails on three
    consecutive attempts, [fetchSupplierData] returns [null] and writes no
    cache entry, so that a later call for the same id asks the network
    again; the cache file changes only on a successful lookup. *)
Theorem supplier_retry_exhaustion (env : Env) (itemId : ItemId) (w : World) :
  let '(w', v) := fetchSupplierData env itemId w in
  (* the cache file changes only when a lookup succeeded *)
  (supplier_cache_file w' ≠ supplier_cache_file w ->
   ∃ n response_data,
     (net_calls w <= n < net_calls w')%nat ∧
     card_api env n itemId = Some response_data ∧
     v = js_or (optional_get response_data "supplier") JNull ∧
     supplier_cache_file w' = Content (<[ToString itemId := v]> (supplierCacheOf w))) ∧
  (* three failed attempts *)
  (truthy (cachedSupplier w itemId) = false ->
   (∀ i, (i < 3)%nat -> card_api env (net_calls w + i) itemId = None) ->
   v = JNull ∧
   same_stores w w' ∧
   writes_of SUPPLIER_CACHE_FILE w' = writes_of SUPPLIER_CACHE_FILE w ∧
   net_calls w' = (net_calls w + 3)%nat ∧
   ∀ env', (net_calls w' < net_calls (fetchSupplierData env' itemId w').1)%nat).
Proof.
  destruct (fetchSupplierData env itemId w) as [w' v] eqn:Hrun. split.
  - intros Hchanged.
    destruct (truthy (cachedSupplier w itemId)) eqn:Ht.
    + rewrite (fetchSupplierData_hit _ _ _ Ht) in Hrun.
      injection Hrun as <- <-. congruence.
    + rewrite (fetchSupplierData_miss _ _ _ Ht) in Hrun.
      pose proof (supplierAttempts_spec env itemId (supplierCacheOf w) maxRetries 0 w) as H.
      rewrite Hrun in H.
      destruct H as (_ & _ & _ & _ & [(Hs & _)|H]); [congruence | exact H].
  - intros Ht Hfail.
    rewrite (fetchSupplierData_miss _ _ _ Ht) in Hrun.
    pose proof (Hfail 0%nat ltac:(lia)) as H0.
    pose proof (Hfail 1%nat ltac:(lia)) as H1.
    pose proof (Hfail 2%nat ltac:(lia)) as H2.
    rewrite Nat.add_0_r in H0. rewrite Nat.add_1_r in H1.
    replace (net_calls w + 2)%nat with (S (S (net_calls w))) in H2 by lia.
    cbn [supplierAttempts maxRetries Nat.ltb Nat.leb] in Hrun.
    count_requests_in Hrun. rewrite H0 in Hrun.
    count_requests_in Hrun. rewrite H1 in Hrun.
    count_requests_in Hrun. rewrite H2 in Hrun.
    injection Hrun as <- <-.
    split; [reflexivity|]. split; [now repeat split|].
    split; [reflexivity|]. split; [unfold net_calls; cbn; lia|].
    intros env'.
    eapply Nat.le_lt_trans; [|apply fetchSupplierData_miss_requests].
    + apply Nat.le_refl.
    + exact Ht.
Qed.

Lemma supplier_retry_exhaustion_witness :
  (fetchSupplierData upstreamDown (IdNumber 42) seededWorld).2 = JNull ∧
  supplier_cache_file (fetchSupplierData upstreamDown (IdNumber 42) seededWorld).1
  = supplier_cache_file seededWorld.
Proof.
  pose proof (supplier_retry_exhaustion upstreamDown (IdNumber 42) seededWorld) as H.
  destruct (fetchSupplierData upstreamDown (IdNumber 42) seededWorld) as [w' v].
  destruct H as [_ H].
  destruct H as (Hv & (_ & _ & _ & Hs) & _).
  - reflexivity.
  - intros i Hi. reflexivity.
  - split; [exact Hv | exact Hs].
Defined.

(** ** Strings *)

Lemma length_append (s t : string) :
  String.length (s +:+ t) = (String.length s + String.length t)%nat.
Proof. induction s as [|c s IH]; simpl; [reflexivity | now rewrite IH]. Qed.

Lemma append_inv_tail (s1 s2 t : string) : s1 +:+ t = s2 +:+ t -> s1 = s2.
Proof.
  revert s2. induction s1 as [|c s1 IH]; intros [|c' s2] H.
  - reflexivity.
  - apply (f_equal String.length) in H. rewrite !length_append in H.
    simpl in H. lia.
  - apply (f_equal String.length) in H. rewrite !length_append in H.
    simpl in H. lia.
  - simpl in H. injection H as -> H. f_equal. now apply IH.
Qed.

Lemma append_inv_head (s t1 t2 : string) : s +:+ t1 = s +:+ t2 -> t1 = t2.
Proof. induction s as [|c s IH]; simpl; intros H; [exact H | injection H as H; auto]. Qed.

(** Same campsite, source and item id: the key determines the date. *)
Lemma compositeKey_date_inj campsiteCode source d1 d2 itemId :
  compositeKey campsiteCode source d1 itemId = compositeKey campsiteCode source d2 itemId ->
  d1 = d2.
Proof.
  unfold compositeKey. intros H.
  do 4 apply append_inv_head in H.
  now apply append_inv_tail in H.
Qed.

(** ** [fetchData] *)

Lemma transform_fields item sup c date ts :
  campsite (transform item sup c date ts) = code c ∧
  website (transform item sup c date ts) = WEBSITE_NAME ∧
  requestedDate (transform item sup c date ts) = date ∧
  rec_id (transform item sup c date ts) = item_id item ∧
  timestamp (transform item sup c date ts) = ts.
Proof. now repeat split. Qed.

Lemma transformItems_spec env c date ts combined acc w :
  let '(w', m) := transformItems env c date ts combined acc w in
  data_file w' = data_file w ∧ campsites_file w' = campsites_file w ∧
  dates_file w' = dates_file w ∧
  (∃ evs, extends w w' evs ∧ Forall (fun e => supplier_event e = true) evs) ∧
  (∀ k r, m !! k = Some r ->
     acc !! k = Some r ∨
     ∃ item sup, item ∈ combined ∧
       k = compositeKey (code c) WEBSITE_NAME date (item_id item) ∧
       r = transform item sup c date ts) ∧
  (∀ k, is_Some (acc !! k) -> is_Some (m !! k)) ∧
  (∀ item, item ∈ combined ->
     is_Some (m !! compositeKey (code c) WEBSITE_NAME date (item_id item))).
Proof.
  revert acc w. induction combined as [|item rest IH]; intros acc w;
    cbn [transformItems].
  - repeat split.
    + exists []. split; [apply extends_refl | constructor].
    + intros k r Hk. now left.
    + auto.
    + intros item Hin. inversion Hin.
  - pose proof (fetchSupplierData_frame env (item_id item) w) as Hsup.
    destruct (fetchSupplierData env (item_id item) w) as [w1 sup].
    destruct Hsup as (Hd1 & Hc1 & Ht1 & evs1 & Hext1 & Hevs1).
    specialize (IH (<[compositeKey (code c) WEBSITE_NAME date (item_id item)
                      := transform item sup c date ts]> acc)
                   (delay_random 0 100 w1)).
    destruct (transformItems env c date ts rest _ _) as [w' m].
    destruct IH as (Hd & Hc & Ht & (evs & Hext & Hevs) & Hfrom & Hmono & Hall).
    split; [now rewrite Hd|]. split; [now rewrite Hc|]. split; [now rewrite Ht|].
    split; [|split; [|split]].
    + exists (evs ++ EvJitter 0 100 :: evs1). split.
      * unfold extends in *. rewrite Hext. cbn. rewrite Hext1.
        now rewrite <- app_assoc.
      * apply Forall_app. split; [assumption|]. constructor; [reflexivity | assumption].
    + intros k r Hk. destruct (Hfrom k r Hk) as [Hacc | (item' & sup' & Hin & -> & ->)].
      * destruct (decide (compositeKey (code c) WEBSITE_NAME date (item_id item) = k))
          as [<-|Hne].
        -- rewrite lookup_insert_eq in Hacc. injection Hacc as <-.
           right. exists item, sup. split; [apply list_elem_of_here | auto].
        -- rewrite lookup_insert_ne in Hacc by assumption. now left.
      * right. exists item', sup'. split; [now apply list_elem_of_further | auto].
    + intros k Hk. apply Hmono.
      destruct (decide (compositeKey (code c) WEBSITE_NAME date (item_id item) = k))
        as [<-|Hne].
      * rewrite lookup_insert_eq. eauto.
      * now rewrite lookup_insert_ne.
    + intros item' Hin. apply elem_of_cons in Hin as [->|Hin].
      * apply Hmono. rewrite lookup_insert_eq. eauto.
      * now apply Hall.
Qed.

Lemma fetchData_fails env body c date w :
  searchFails env (net_calls w) body = true ->
  fetchData env body c date w = (emit (EvPost body) w, None).
Proof.
  unfold searchFails, fetchData. intros H.
  destruct (search_api env (net_calls w) body) as [[[d|]]|]; [discriminate | |]; reflexivity.
Qed.

Lemma fetchData_succeeds env body c date w d :
  search_api env (net_calls w) body = Some (mkRawData (Some d)) ->
  fetchData env body c date w =
    let w1 := emit (EvPost body) w in
    let '(w2, m) := transformItems env c date (ingestionTimestamp (now env w1))
                      (combinedListings d) ∅ w1 in
    (w2, Some m).
Proof. unfold fetchData. intros ->. reflexivity. Qed.

(** What a fetch may touch, and what its records are. *)
Lemma fetchData_spec env body c date w :
  let '(w', fetched) := fetchData env body c date w in
  data_file w' = data_file w ∧ campsites_file w' = campsites_file w ∧
  dates_file w' = dates_file w ∧
  (∃ evs, extends w w' (evs ++ [EvPost body]) ∧
          Forall (fun e => supplier_event e = true) evs) ∧
  match fetched with
  | None => searchFails env (net_calls w) body = true ∧ w' = emit (EvPost body) w
  | Some m =>
      ∃ d, search_api env (net_calls w) body = Some (mkRawData (Some d)) ∧
        (∀ k r, m !! k = Some r ->
           ∃ item sup, item ∈ combinedListings d ∧
             k = compositeKey (code c) WEBSITE_NAME date (item_id item) ∧
             r = transform item sup c date
                   (ingestionTimestamp (now env (emit (EvPost body) w)))) ∧
        (∀ item, item ∈ combinedListings d ->
           is_Some (m !! compositeKey (code c) WEBSITE_NAME date (item_id item)))
  end.
Proof.
  destruct (searchFails env (net_calls w) body) eqn:Hf.
  - rewrite (fetchData_fails _ _ _ _ _ Hf). repeat split.
    exists []. split; [reflexivity | constructor].
  - unfold searchFails in Hf.
    destruct (search_api env (net_calls w) body) as [[[d|]]|] eqn:Hs; try discriminate.
    rewrite (fetchData_succeeds _ _ _ _ _ _ Hs). cbv zeta.
    pose proof (transformItems_spec env c date
                  (ingestionTimestamp (now env (emit (EvPost body) w)))
                  (combinedListings d) ∅ (emit (EvPost body) w)) as H.
    destruct (transformItems _ _ _ _ _ _ _) as [w2 m].
    destruct H as (Hd & Hc & Ht & (evs & Hext & Hevs) & Hfrom & _ & Hall).
    repeat split; try assumption.
    + exists evs. split; [|assumption]. unfold extends in *. rewrite Hext.
      cbn. now rewrite <- app_assoc.
    + exists d. split; [reflexivity|]. split; [|assumption].
      intros k r Hk. destruct (Hfrom k r Hk) as [Hacc|H]; [|exact H].
      rewrite lookup_empty in Hacc. discriminate.
Qed.

(** ** The date loop *)

Lemma scrapeDates_spec env c dates acc w :
  let '(w', m) := scrapeDates env c dates acc w in
  data_file w' = data_file w ∧ campsites_file w' = campsites_file w ∧
  dates_file w' = dates_file w ∧
  (∃ evs, extends w w' evs ∧ Forall (fun e => loop_event e = true) evs ∧
          count is_post evs = length dates) ∧
  (∀ k r, m !! k = Some r ->
     acc !! k = Some r ∨
     (campsite r = code c ∧ website r = WEBSITE_NAME ∧ keyed k r ∧
      ∃ label, (label, requestedDate r) ∈ dates)) ∧
  (∀ k, is_Some (acc !! k) -> is_Some (m !! k)).
Proof.
  revert acc w. induction dates as [|[label date] rest IH]; intros acc w;
    cbn [scrapeDates].
  - repeat split; auto.
    exists []. split; [apply extends_refl | split; [constructor | reflexivity]].
  - pose proof (fetchData_spec env (createRequestBody date c) c date w) as Hf.
    destruct (fetchData env (createRequestBody date c) c date w) as [w1 fetched].
    destruct Hf as (Hd1 & Hc1 & Ht1 & (evs1 & Hext1 & Hevs1) & Hfetched).
    match goal with
    | |- context [scrapeDates env c rest ?m ?w0] => specialize (IH m w0)
    end.
    destruct (scrapeDates env c rest _ _) as [w' m].
    destruct IH as (Hd & Hc & Ht & (evs & Hext & Hevs & Hposts) & Hfrom & Hmono).
    split; [now rewrite Hd|]. split; [now rewrite Hc|]. split; [now rewrite Ht|].
    split; [|split].
    + exists (evs ++ EvJitter 1000 1000 :: evs1 ++ [EvPost (createRequestBody date c)]).
      split; [|split].
      * unfold extends in *. rewrite Hext. cbn. rewrite Hext1.
        rewrite <- ?app_assoc. cbn. rewrite <- ?app_assoc. reflexivity.
      * apply Forall_app. split; [assumption|]. constructor; [reflexivity|].
        apply Forall_app. split; [|repeat constructor].
        eapply Forall_impl; [exact Hevs1|]. apply supplier_event_loop.
      * rewrite count_app, Hposts.
        change (EvJitter 1000 1000 :: evs1 ++ [EvPost (createRequestBody date c)])
          with ([EvJitter 1000 1000] ++ evs1 ++ [EvPost (createRequestBody date c)]).
        rewrite !count_app.
        rewrite (count_none is_post evs1)
          by (eapply Forall_impl; [exact Hevs1|]; apply supplier_event_not_post).
        cbn. lia.
    + intros k r Hk. destruct (Hfrom k r Hk) as [Hacc|(Hcode & Hweb & Hkey & l & Hin)].
      * destruct fetched as [m1|]; [|now left].
        destruct Hfetched as (d & _ & Hrecs & _).
        unfold Object_assign in Hacc. apply lookup_union_Some_raw in Hacc.
        destruct Hacc as [Hm1|[_ Hacc]]; [|now left].
        destruct (Hrecs k r Hm1) as (item & sup & _ & -> & ->).
        right. repeat split. exists label. apply list_elem_of_here.
      * right. repeat split; try assumption. exists l. now apply list_elem_of_further.
    + intros k Hk. apply Hmono. destruct fetched as [m1|]; [|assumption].
      unfold Object_assign. apply lookup_union_is_Some. now right.
Qed.

(** Every listing of a date that is fetched with success has its key among
    the new results. *)
Lemma scrapeDates_present env c dates acc w label date d item :
  (label, date) ∈ dates ->
  (∀ n, search_api env n (createRequestBody date c) = Some (mkRawData (Some d))) ->
  item ∈ combinedListings d ->
  is_Some ((scrapeDates env c dates acc w).2
             !! compositeKey (code c) WEBSITE_NAME date (item_id item)).
Proof.
  intros Hin Hup Hitem. revert acc w.
  induction dates as [|[label' date'] rest IH]; intros acc w; [inversion Hin|].
  cbn [scrapeDates].
  pose proof (fetchData_spec env (createRequestBody date' c) c date' w) as Hf.
  destruct (fetchData env (createRequestBody date' c) c date' w) as [w1 fetched].
  destruct Hf as (_ & _ & _ & _ & Hfetched).
  apply elem_of_cons in Hin as [Heq|Hin]; [|apply IH; assumption].
  injection Heq as <- <-.
  match goal with
  | |- context [scrapeDates env c rest ?m ?w0] =>
      pose proof (scrapeDates_spec env c rest m w0) as Hrest
  end.
  destruct (scrapeDates env c rest _ _) as [w' m].
  destruct Hrest as (_ & _ & _ & _ & _ & Hmono).
  cbn [snd]. apply Hmono.
  destruct fetched as [m1|].
  - destruct Hfetched as (d' & Hs & _ & Hall).
    rewrite Hup in Hs. injection Hs as <-.
    unfold Object_assign. apply lookup_union_is_Some. left. now apply Hall.
  - destruct Hfetched as [Hfails _]. unfold searchFails in Hfails.
    rewrite Hup in Hfails. discriminate.
Qed.

(** When every search fails the loop adds nothing and touches no file. *)
Lemma scrapeDates_all_fail env c dates acc w :
  (∀ i body, (i < length dates)%nat -> searchFails env (net_calls w + i) body = true) ->
  (scrapeDates env c dates acc w).2 = acc ∧
  same_stores w (scrapeDates env c dates acc w).1.
Proof.
  revert w. induction dates as [|[label date] rest IH]; intros w Hfail;
    cbn [scrapeDates].
  - split; [reflexivity | apply same_stores_refl].
  - rewrite fetchData_fails.
    2:{ specialize (Hfail 0%nat (createRequestBody date c)).
        rewrite Nat.add_0_r in Hfail. apply Hfail. cbn. lia. }
    destruct (IH (delay_random 1000 1000 (emit (EvPost (createRequestBody date c)) w)))
      as [Hacc Hsame].
    + intros i body Hi. rewrite net_calls_delay_random, net_calls_emit_post.
      replace (S (net_calls w) + i)%nat with (net_calls w + S i)%nat by lia.
      apply Hfail. cbn. lia.
    + split; [exact Hacc | exact Hsame].
Qed.

(** ** [scrapeCampsite] *)

Lemma scrapeCampsite_spec env c w :
  let '(w', _, _) := scrapeCampsite env c w in
  data_file w' = Content (Object_assign (removeCampsite (code c) (currentResultsOf w))
                                        (newResultsOf env c w)) ∧
  dates_file w' = dates_file w ∧
  ∃ loop_evs after,
    trace w' = after ++ EvWrite DATA_FILE :: loop_evs ++ trace w ∧
    Forall (fun e => loop_event e = true) loop_evs ∧
    count is_post loop_evs = length (datesOf w) ∧
    (after = [] ∨ after = [EvWrite CAMPSITES_FILE]).
Proof.
  unfold scrapeCampsite, newResultsOf, currentResultsOf.
  fold (datesOf w).
  pose proof (scrapeDates_spec env c (datesOf w) ∅ w) as H.
  destruct (scrapeDates env c (datesOf w) ∅ w) as [w1 m]. cbn [snd].
  destruct H as (_ & _ & Ht & (evs & Hext & Hevs & Hposts) & _).
  assert (Htr : trace (saveFile DATA_FILE
                         (Object_assign (removeCampsite (code c)
                            (as_object (loadFile DATA_FILE w EmptyObject))) m) w1)
                = EvWrite DATA_FILE :: evs ++ trace w).
  { cbn. now rewrite Hext. }
  destruct (0 <? size m)%nat.
  - destruct (loadFile CAMPSITES_FILE w EmptyObject) as [l| |[]].
    + destruct (list_find _ l) as [[campsiteIndex x]|].
      * split; [reflexivity|]. split; [exact Ht|].
        exists evs, [EvWrite CAMPSITES_FILE]. repeat split; auto.
        cbn. now rewrite Hext.
      * split; [reflexivity|]. split; [exact Ht|].
        exists evs, []. repeat split; auto.
    + split; [reflexivity|]. split; [exact Ht|].
      exists evs, []. repeat split; auto.
  - split; [reflexivity|]. split; [exact Ht|].
    exists evs, []. repeat split; auto.
Qed.

(** C1 (counterexample).  The claim says that every record of another
    campsite is unchanged by a scrape.  In [collidingWorld] a record of XYZ
    is stored under the key the scrape of ABC produces; the overlay
    replaces it. *)
Lemma scrape_replaces_colliding_record :
  ¬ (∀ k r,
       currentResultsOf collidingWorld !! k = Some r ->
       campsite r ≠ code campsiteABC ->
       currentResultsOf (scrapeCampsite upstreamUp campsiteABC collidingWorld).1.1 !! k
       = Some r).
Proof.
  intros H.
  specialize (H "ABC_from_ALLCAMPS_at_2025-06-01_#42" recordXYZ).
  assert (Hprior : currentResultsOf collidingWorld
                     !! "ABC_from_ALLCAMPS_at_2025-06-01_#42" = Some recordXYZ)
    by (vm_compute; reflexivity).
  assert (Hcode : campsite recordXYZ ≠ code campsiteABC) by (vm_compute; discriminate).
  specialize (H Hprior Hcode).
  vm_compute in H. discriminate H.
Qed.

(** C1 (amended).  After [scrapeCampsite] the result store is the prior
    store without the records of this campsite, overlaid with the new
    results, whose keys win; a record of another campsite is unchanged
    unless its key is one of the new keys; a record of this campsite whose
    key is not renewed is gone; the store is written once, after the
    search requests of all date entries. *)
Theorem scrape_reconciliation (env : Env) (c : Campsite) (w : World) :
  let '(w', _, _) := scrapeCampsite env c w in
  let prior := currentResultsOf w in
  let new := newResultsOf env c w in
  let final := currentResultsOf w' in
  data_file w' = Content (new ∪ filter (fun kv => campsite kv.2 ≠ code c) prior) ∧
  (∀ k r, new !! k = Some r -> final !! k = Some r) ∧
  (∀ k r, prior !! k = Some r -> campsite r ≠ code c -> new !! k = None ->
          final !! k = Some r) ∧
  (∀ k r, prior !! k = Some r -> campsite r = code c -> new !! k = None ->
          final !! k = None) ∧
  writes_of DATA_FILE w' = S (writes_of DATA_FILE w) ∧
  ∃ loop_evs after,
    trace w' = after ++ EvWrite DATA_FILE :: loop_evs ++ trace w ∧
    count is_post loop_evs = length (datesOf w) ∧
    count (is_write DATA_FILE) loop_evs = 0%nat ∧
    count is_request after = 0%nat ∧
    count (is_write DATA_FILE) after = 0%nat.
Proof.
  pose proof (scrapeCampsite_spec env c w) as H.
  destruct (scrapeCampsite env c w) as [[w' c'] completion].
  destruct H as (Hdata & _ & loop_evs & after & Htrace & Hloop & Hposts & Hafter).
  cbv zeta. unfold Object_assign, removeCampsite in Hdata.
  assert (Hfinal : currentResultsOf w'
                   = newResultsOf env c w
                       ∪ filter (fun kv => campsite kv.2 ≠ code c) (currentResultsOf w)).
  { unfold currentResultsOf at 1, loadFile. cbn [read_file]. now rewrite Hdata. }
  assert (Hnowrite : count (is_write DATA_FILE) loop_evs = 0%nat).
  { apply count_none. eapply Forall_impl; [exact Hloop|].
    apply loop_event_not_write_data. }
  split; [exact Hdata|]. rewrite Hfinal.
  split; [|split; [|split; [|split]]].
  - intros k r Hk. now apply lookup_union_Some_l.
  - intros k r Hk Hc Hnew. rewrite lookup_union_r by assumption.
    apply map_lookup_filter_Some. split; [assumption | exact Hc].
  - intros k r Hk Hc Hnew. rewrite lookup_union_r by assumption.
    apply map_lookup_filter_None. right. intros r' Hr'. cbn.
    rewrite Hk in Hr'. injection Hr' as <-. auto.
  - unfold writes_of. rewrite Htrace.
    fold (count (is_write DATA_FILE) (after ++ EvWrite DATA_FILE :: loop_evs ++ trace w)).
    change (EvWrite DATA_FILE :: loop_evs ++ trace w)
      with ([EvWrite DATA_FILE] ++ loop_evs ++ trace w).
    rewrite !count_app, Hnowrite.
    destruct Hafter as [-> | ->]; reflexivity.
  - exists loop_evs, after. repeat split; try assumption;
      destruct Hafter as [-> | ->]; reflexivity.
Qed.

Lemma scrape_reconciliation_witness :
  currentResultsOf (scrapeCampsite upstreamUp campsiteABC mixedWorld).1.1
    !! "XYZ_from_ALLCAMPS_at_2025-06-01_#7" = Some recordXYZ ∧
  currentResultsOf (scrapeCampsite upstreamUp campsiteABC mixedWorld).1.1
    !! "ABC_from_ALLCAMPS_at_2025-05-01_#7" = None.
Proof.
  pose proof (scrape_reconciliation upstreamUp campsiteABC mixedWorld) as H.
  destruct (scrapeCampsite upstreamUp campsiteABC mixedWorld) as [[w' c'] completion].
  cbv zeta in H. destruct H as (_ & _ & Hother & Hown & _).
  split.
  - apply Hother.
    + vm_compute. reflexivity.
    + vm_compute. discriminate.
    + vm_compute. reflexivity.
  - apply (Hown _ staleRecordABC).
    + vm_compute. reflexivity.
    + vm_compute. reflexivity.
    + vm_compute. reflexivity.
Defined.

(** C3.  Claim: when the fetch of every date entry fails, the result store
    persisted by the scrape holds no record of this campsite (the prior
    ones are removed, none is added), and the campsite's [lastUpdate] in
    the persisted registry is left unchanged. *)
Theorem total_failure_is_destructive (env : Env) (c : Campsite) (w : World) :
  (∀ i body, (i < length (datesOf w))%nat ->
             searchFails env (net_calls w + i) body = true) ->
  let '(w', c', completion) := scrapeCampsite env c w in
  completion = Returned ∧
  data_file w' = Content (removeCampsite (code c) (currentResultsOf w)) ∧
  (∀ k r, currentResultsOf w' !! k = Some r -> campsite r ≠ code c) ∧
  (∀ k r, currentResultsOf w !! k = Some r -> campsite r ≠ code c ->
          currentResultsOf w' !! k = Some r) ∧
  campsites_file w' = campsites_file w ∧
  writes_of CAMPSITES_FILE w' = writes_of CAMPSITES_FILE w ∧
  c' = c.
Proof.
  intros Hfail.
  pose proof (scrapeDates_all_fail env c (datesOf w) ∅ w Hfail) as [Hnew Hsame].
  pose proof (scrapeDates_spec env c (datesOf w) ∅ w) as Hspec.
  unfold scrapeCampsite. fold (datesOf w). fold (currentResultsOf w).
  destruct (scrapeDates env c (datesOf w) ∅ w) as [w1 m].
  cbn [fst snd] in Hnew, Hsame. subst m.
  destruct Hspec as (_ & _ & _ & (evs & Hext & Hevs & _) & _).
  destruct Hsame as (_ & Hcamp & _).
  rewrite map_size_empty. cbn [Nat.ltb Nat.leb].
  unfold Object_assign. rewrite (left_id_L ∅ (∪)).
  assert (Hfinal : currentResultsOf
                     (saveFile DATA_FILE (removeCampsite (code c) (currentResultsOf w)) w1)
                   = removeCampsite (code c) (currentResultsOf w)) by reflexivity.
  split; [reflexivity|]. split; [reflexivity|]. rewrite Hfinal.
  split; [|split; [|split; [|split]]].
  - intros k r Hk. unfold removeCampsite in Hk.
    apply map_lookup_filter_Some in Hk. exact (proj2 Hk).
  - intros k r Hk Hc. unfold removeCampsite.
    apply map_lookup_filter_Some. split; [assumption | exact Hc].
  - exact Hcamp.
  - unfold writes_of. cbn [saveFile emit trace write_file]. rewrite Hext.
    cbn [List.filter is_write]. rewrite bool_decide_eq_false_2 by discriminate.
    rewrite List.filter_app, length_app.
    fold (count (is_write CAMPSITES_FILE) evs).
    rewrite (count_none (is_write CAMPSITES_FILE) evs); [reflexivity|].
    eapply Forall_impl; [exact Hevs|]. apply loop_event_not_write_campsites.
  - reflexivity.
Qed.

Lemma total_failure_is_destructive_witness :
  data_file (scrapeCampsite upstreamDown campsiteABC mixedWorld).1.1
  = Content {[ "XYZ_from_ALLCAMPS_at_2025-06-01_#7" := recordXYZ ]} ∧
  campsites_file (scrapeCampsite upstreamDown campsiteABC mixedWorld).1.1
  = campsites_file mixedWorld.
Proof.
  pose proof (total_failure_is_destructive upstreamDown campsiteABC mixedWorld) as H.
  destruct (scrapeCampsite upstreamDown campsiteABC mixedWorld) as [[w' c'] completion].
  destruct H as (_ & Hdata & _ & _ & Hcamp & _).
  - intros i body Hi. reflexivity.
  - cbn [fst]. split; [|exact Hcamp]. rewrite Hdata. vm_compute. reflexivity.
Defined.

Lemma scrapeCampsite_store env c w :
  currentResultsOf (scrapeCampsite env c w).1.1
  = newResultsOf env c w ∪ removeCampsite (code c) (currentResultsOf w).
Proof.
  pose proof (scrapeCampsite_spec env c w) as H.
  destruct (scrapeCampsite env c w) as [[w' c'] completion].
  destruct H as (Hdata & _). cbn [fst].
  unfold currentResultsOf at 1, loadFile. cbn [read_file]. now rewrite Hdata.
Qed.

(** The new results of a scrape are records of the scraped campsite,
    each under the composite key of its own fields. *)
Lemma newResults_records env c w k r :
  newResultsOf env c w !! k = Some r ->
  campsite r = code c ∧ website r = WEBSITE_NAME ∧ keyed k r ∧
  ∃ label, (label, requestedDate r) ∈ datesOf w.
Proof.
  unfold newResultsOf. intros Hk.
  pose proof (scrapeDates_spec env c (datesOf w) ∅ w) as H.
  destruct (scrapeDates env c (datesOf w) ∅ w) as [w1 m]. cbn [snd] in Hk.
  destruct H as (_ & _ & _ & _ & Hfrom & _).
  destruct (Hfrom k r Hk) as [Hempty|H]; [|exact H].
  rewrite lookup_empty in Hempty. discriminate.
Qed.

(** After a scrape the records of the scraped campsite in the store are
    exactly the new results. *)
Lemma scrape_own_records_are_new env c w k r :
  currentResultsOf (scrapeCampsite env c w).1.1 !! k = Some r ∧ campsite r = code c
  ↔ newResultsOf env c w !! k = Some r.
Proof.
  rewrite scrapeCampsite_store. split.
  - intros [Hk Hc]. apply lookup_union_Some_raw in Hk as [Hk|[_ Hk]]; [exact Hk|].
    unfold removeCampsite in Hk. apply map_lookup_filter_Some in Hk as [_ Hne].
    cbn in Hne. contradiction.
  - intros Hk. split; [now apply lookup_union_Some_l|].
    now apply newResults_records in Hk as (Hc & _).
Qed.

(** C10.  Claim: every record of the mapping returned by a successful
    [fetchData(body, C, d)] has [campsite] equal to [C.code], [website]
    equal to ["ALLCAMPS"] and [requestedDate] equal to [d]. *)
Theorem fetched_records_carry_campsite (env : Env) (body : RequestBody)
    (c : Campsite) (date : string) (w w' : World) (m : gmap string ResultRecord) :
  fetchData env body c date w = (w', Some m) ->
  ∀ k r, m !! k = Some r ->
    campsite r = code c ∧ website r = "ALLCAMPS" ∧ requestedDate r = date.
Proof.
  intros Hrun k r Hk.
  pose proof (fetchData_spec env body c date w) as H. rewrite Hrun in H.
  destruct H as (_ & _ & _ & _ & d & _ & Hrecs & _).
  destruct (Hrecs k r Hk) as (item & sup & _ & _ & ->).
  now repeat split.
Qed.

Lemma fetched_records_carry_campsite_witness :
  ∃ m r,
    (fetchData upstreamUp (createRequestBody "2025-06-01" campsiteABC)
       campsiteABC "2025-06-01" seededWorld).2 = Some m ∧
    m !! "ABC_from_ALLCAMPS_at_2025-06-01_#42" = Some r ∧
    campsite r = "ABC" ∧ website r = "ALLCAMPS" ∧ requestedDate r = "2025-06-01".
Proof.
  destruct (fetchData upstreamUp (createRequestBody "2025-06-01" campsiteABC)
              campsiteABC "2025-06-01" seededWorld) as [w' [m|]] eqn:Hrun.
  - assert (Hk : is_Some (m !! "ABC_from_ALLCAMPS_at_2025-06-01_#42")).
    { pose proof Hrun as Hrun'. vm_compute in Hrun'. injection Hrun' as _ <-.
      vm_compute. eauto. }
    destruct Hk as [r Hr]. exists m, r.
    split; [reflexivity|]. split; [exact Hr|].
    exact (fetched_records_carry_campsite _ _ _ _ _ _ _ Hrun _ r Hr).
  - vm_compute in Hrun. discriminate Hrun.
Defined.

(** C7.  Claim: every record is keyed by
    [<campsiteCode>_from_<source>_at_<date>_#<itemId>]; hence two listings
    with the same item id, fetched for the same campsite on two different
    dates, get two distinct keys, and both keys hold a record after the
    reconciliation. *)
Theorem composite_keys_distinguish_dates (env : Env) (c : Campsite) (w : World)
    (label1 label2 d1 d2 : string) (sd1 sd2 : SearchData) (x1 x2 : Listing) :
  d1 ≠ d2 ->
  (label1, d1) ∈ datesOf w ->
  (label2, d2) ∈ datesOf w ->
  (∀ n, search_api env n (createRequestBody d1 c) = Some (mkRawData (Some sd1))) ->
  (∀ n, search_api env n (createRequestBody d2 c) = Some (mkRawData (Some sd2))) ->
  x1 ∈ combinedListings sd1 ->
  x2 ∈ combinedListings sd2 ->
  item_id x1 = item_id x2 ->
  let k1 := compositeKey (code c) "ALLCAMPS" d1 (item_id x1) in
  let k2 := compositeKey (code c) "ALLCAMPS" d2 (item_id x2) in
  let final := currentResultsOf (scrapeCampsite env c w).1.1 in
  (∀ k r, newResultsOf env c w !! k = Some r ->
          k = compositeKey (code c) "ALLCAMPS" (requestedDate r) (rec_id r)) ∧
  k1 ≠ k2 ∧
  ∃ r1 r2, final !! k1 = Some r1 ∧ final !! k2 = Some r2 ∧ keyed k1 r1 ∧ keyed k2 r2.
Proof.
  intros Hne Hin1 Hin2 Hup1 Hup2 Hx1 Hx2 Hid. cbv zeta.
  split; [|split].
  - intros k r Hk. apply newResults_records in Hk as (Hc & Hw & Hkey & _).
    unfold keyed in Hkey. now rewrite Hc, Hw in Hkey.
  - rewrite <- Hid. intros Heq. apply compositeKey_date_inj in Heq. contradiction.
  - destruct (scrapeDates_present env c (datesOf w) ∅ w label1 d1 sd1 x1 Hin1 Hup1 Hx1)
      as [r1 Hr1].
    destruct (scrapeDates_present env c (datesOf w) ∅ w label2 d2 sd2 x2 Hin2 Hup2 Hx2)
      as [r2 Hr2].
    fold (newResultsOf env c w) in Hr1, Hr2.
    exists r1, r2. rewrite scrapeCampsite_store.
    split; [now apply lookup_union_Some_l|].
    split; [now apply lookup_union_Some_l|].
    split.
    + now apply newResults_records in Hr1 as (_ & _ & Hkey & _).
    + now apply newResults_records in Hr2 as (_ & _ & Hkey & _).
Qed.

Lemma composite_keys_distinguish_dates_witness :
  "ABC_from_ALLCAMPS_at_2025-06-01_#42" ≠ "ABC_from_ALLCAMPS_at_2025-06-08_#42" ∧
  ∃ r1 r2,
    currentResultsOf (scrapeCampsite upstreamUp campsiteABC twoDatesWorld).1.1
      !! "ABC_from_ALLCAMPS_at_2025-06-01_#42" = Some r1 ∧
    currentResultsOf (scrapeCampsite upstreamUp campsiteABC twoDatesWorld).1.1
      !! "ABC_from_ALLCAMPS_at_2025-06-08_#42" = Some r2.
Proof.
  destruct (composite_keys_distinguish_dates upstreamUp campsiteABC twoDatesWorld
              "week1" "week2" "2025-06-01" "2025-06-08"
              sampleSearchData sampleSearchData listing42 listing42)
    as (_ & Hne & r1 & r2 & H1 & H2 & _).
  - discriminate.
  - apply list_elem_of_here.
  - apply list_elem_of_further, list_elem_of_here.
  - intros n. reflexivity.
  - intros n. reflexivity.
  - apply list_elem_of_here.
  - apply list_elem_of_here.
  - reflexivity.
  - split; [exact Hne|]. exists r1, r2. split; [exact H1 | exact H2].
Defined.

(** C6.  Claim: for a (campsite, date) pair the fetch step returns either
    the transformed records of the concatenation of the response's
    accommodations and alternatives, or, on a transport or parse error, a
    failure with no data; the orchestrator then skips the pair and goes on
    with the remaining dates. *)
Theorem fetch_is_all_or_nothing (env : Env) (c : Campsite) (date : string) (w : World) :
  let body := createRequestBody date c in
  (* failure *)
  (searchFails env (net_calls w) body = true ->
   fetchData env body c date w = (emit (EvPost body) w, None) ∧
   ∀ label rest newResults,
     scrapeDates env c ((label, date) :: rest) newResults w
     = scrapeDates env c rest newResults (delay_random 1000 1000 (emit (EvPost body) w))) ∧
  (* success *)
  (∀ d, search_api env (net_calls w) body = Some (mkRawData (Some d)) ->
   ∃ w' m,
     fetchData env body c date w = (w', Some m) ∧
     (∀ item, item ∈ or_empty (accommodations d) ++ or_empty (alternatives d) ->
        is_Some (m !! compositeKey (code c) "ALLCAMPS" date (item_id item))) ∧
     (∀ k r, m !! k = Some r ->
        ∃ item sup,
          item ∈ or_empty (accommodations d) ++ or_empty (alternatives d) ∧
          k = compositeKey (code c) "ALLCAMPS" date (item_id item) ∧
          r = transform item sup c date
                (ingestionTimestamp (now env (emit (EvPost body) w)))) ∧
     ∀ label rest newResults,
       scrapeDates env c ((label, date) :: rest) newResults w
       = scrapeDates env c rest (m ∪ newResults) (delay_random 1000 1000 w')).
Proof.
  cbv zeta. split.
  - intros Hf. split; [now apply fetchData_fails|].
    intros label rest newResults. cbn [scrapeDates].
    now rewrite (fetchData_fails _ _ _ _ _ Hf).
  - intros d Hs.
    pose proof (fetchData_spec env (createRequestBody date c) c date w) as H.
    destruct (fetchData env (createRequestBody date c) c date w) as [w' [m|]] eqn:Hrun.
    + destruct H as (_ & _ & _ & _ & d' & Hs' & Hrecs & Hall).
      rewrite Hs in Hs'. injection Hs' as <-.
      exists w', m. split; [reflexivity|]. split; [exact Hall|]. split; [exact Hrecs|].
      intros label rest newResults. cbn [scrapeDates]. now rewrite Hrun.
    + destruct H as (_ & _ & _ & _ & Hf & _). unfold searchFails in Hf.
      rewrite Hs in Hf. discriminate.
Qed.

Lemma fetch_is_all_or_nothing_witness :
  (fetchData upstreamDown (createRequestBody "2025-06-01" campsiteABC)
     campsiteABC "2025-06-01" seededWorld).2 = None ∧
  ∃ w' m,
    fetchData upstreamUp (createRequestBody "2025-06-01" campsiteABC)
      campsiteABC "2025-06-01" seededWorld = (w', Some m) ∧
    is_Some (m !! "ABC_from_ALLCAMPS_at_2025-06-01_#42").
Proof.
  split.
  - destruct (fetch_is_all_or_nothing upstreamDown campsiteABC "2025-06-01" seededWorld)
      as [Hfail _].
    destruct Hfail as [Hrun _]; [reflexivity|].
    now rewrite Hrun.
  - destruct (fetch_is_all_or_nothing upstreamUp campsiteABC "2025-06-01" seededWorld)
      as [_ Hok].
    destruct (Hok sampleSearchData) as (w' & m & Hrun & Hall & _); [reflexivity|].
    exists w', m. split; [exact Hrun|].
    apply (Hall listing42). apply list_elem_of_here.
Defined.

(** ** Candidate selection *)

Lemma find_first {A} (f : A -> bool) (l : list A) :
  match List.find f l with
  | Some x => ∃ before after, l = before ++ x :: after ∧ f x = true ∧
                              Forall (fun y => f y = false) before
  | None => Forall (fun y => f y = false) l
  end.
Proof.
  induction l as [|a l IH]; cbn [List.find]; [constructor|].
  destruct (f a) eqn:Ha.
  - exists [], l. repeat split; [exact Ha | constructor].
  - destruct (List.find f l) as [x|].
    + destruct IH as (before & after & -> & Hx & Hbefore).
      exists (a :: before), after. repeat split; [exact Hx | now constructor].
    + now constructor.
Qed.

Lemma needsUpdate_true dateNow c :
  needsUpdate (dateNow - REFRESH_INTERVAL) c = true ↔ isStale dateNow c.
Proof.
  unfold needsUpdate, isStale.
  change REFRESH_INTERVAL with 172800000.
  destruct (lastUpdate c) as [t|]; [apply Z.ltb_lt | tauto].
Qed.

Lemma needsUpdate_false dateNow c :
  needsUpdate (dateNow - REFRESH_INTERVAL) c = false ↔ ¬ isStale dateNow c.
Proof.
  rewrite <- needsUpdate_true. destruct (needsUpdate _ c); split; congruence.
Qed.

(** C4.  Claim: the candidate selector of [GET /scrape] returns the first
    campsite, in registry order, whose [lastUpdate] is absent or strictly
    older than [now] minus 48 hours; it has no side effect, and when every
    campsite is fresh it returns none and no scrape runs.  A campsite
    updated 10 hours ago is never selected; one updated 72 hours ago or
    never updated makes the selection succeed. *)
Theorem candidate_is_first_stale (campsites : list Campsite) (dateNow : Z) :
  match selectCandidate campsites dateNow with
  | Some c =>
      ∃ before after, campsites = before ++ c :: after ∧ isStale dateNow c ∧
                      Forall (fun x => ¬ isStale dateNow x) before
  | None => Forall (fun x => ¬ isStale dateNow x) campsites
  end ∧
  (∀ c, lastUpdate c = Some (dateNow - hours 10) ->
        selectCandidate campsites dateNow ≠ Some c) ∧
  (∀ c, c ∈ campsites ->
        lastUpdate c = None ∨ lastUpdate c = Some (dateNow - hours 72) ->
        ∃ c', selectCandidate campsites dateNow = Some c' ∧ isStale dateNow c') ∧
  (∀ env w, campsites_file w = Content campsites -> now env w = dateNow ->
     scrapeEndpoint env w =
       match selectCandidate campsites dateNow with
       | Some c => let '(w', _, completion) := scrapeCampsite env c w in (w', completion)
       | None => (w, Returned)
       end).
Proof.
  pose proof (find_first (needsUpdate (dateNow - REFRESH_INTERVAL)) campsites) as Hfind.
  fold (selectCandidate campsites dateNow) in Hfind.
  assert (Hsel : match selectCandidate campsites dateNow with
                 | Some c =>
                     ∃ before after, campsites = before ++ c :: after ∧
                       isStale dateNow c ∧ Forall (fun x => ¬ isStale dateNow x) before
                 | None => Forall (fun x => ¬ isStale dateNow x) campsites
                 end).
  { destruct (selectCandidate campsites dateNow) as [c|].
    - destruct Hfind as (before & after & Heq & Hc & Hbefore).
      exists before, after. split; [exact Heq|]. split; [now apply needsUpdate_true|].
      eapply Forall_impl; [exact Hbefore|]. intros x. apply needsUpdate_false.
    - eapply Forall_impl; [exact Hfind|]. intros x. apply needsUpdate_false. }
  split; [exact Hsel|]. split; [|split].
  - intros c Hc Hs. rewrite Hs in Hsel.
    destruct Hsel as (_ & _ & _ & Hstale & _).
    unfold isStale in Hstale. rewrite Hc in Hstale. unfold hours in Hstale. lia.
  - intros c Hin Hc.
    destruct (selectCandidate campsites dateNow) as [c'|].
    + exists c'. split; [reflexivity|]. now destruct Hsel as (_ & _ & _ & Hstale & _).
    + exfalso. rewrite Forall_forall in Hsel. apply (Hsel c Hin).
      unfold isStale. destruct Hc as [-> | ->]; [exact I | unfold hours; lia].
  - intros env w Hfile Hnow. unfold scrapeEndpoint, loadFile. cbn [read_file].
    rewrite Hfile, Hnow. reflexivity.
Qed.

Lemma candidate_is_first_stale_witness :
  (∃ c', selectCandidate sampleRegistry sampleInstant = Some c' ∧
         isStale sampleInstant c') ∧
  selectCandidate sampleRegistry sampleInstant ≠ Some campsite10h ∧
  scrapeEndpoint upstreamUp freshWorld = (freshWorld, Returned).
Proof.
  destruct (candidate_is_first_stale sampleRegistry sampleInstant)
    as (_ & Hten & Hold & _).
  destruct (candidate_is_first_stale [campsite10h] sampleInstant)
    as (_ & _ & _ & Hquiet).
  split; [|split].
  - apply (Hold campsite72h).
    + apply list_elem_of_further, list_elem_of_here.
    + right. reflexivity.
  - apply Hten. reflexivity.
  - rewrite (Hquiet upstreamUp freshWorld); reflexivity.
Defined.

(** ** The ingestion timestamp *)

Lemma substring_0_length (n : nat) (s : string) :
  (String.length (String.substring 0 n s) <= n)%nat.
Proof.
  revert s. induction n as [|n IH]; intros [|ch s]; simpl; try lia.
  specialize (IH s). lia.
Qed.

(** C8 (the code departs from the claim by one character).  Claim: the
    ingestion timestamp has the format [YYYY-MM-DD, HH:MM], with two
    minute digits.  That format has 17 characters; the code replaces ["T"]
    by the two characters [", "] and then keeps 16 characters, so the
    second minute digit is cut: at 2025-06-01T12:34:56.789Z the timestamp
    is ["2025-06-01, 12:3"]. *)
Theorem ingestion_timestamp_loses_minute_digit :
  Date.toISOString sampleInstant = "2025-06-01T12:34:56.789Z" ∧
  ingestionTimestamp sampleInstant = "2025-06-01, 12:3" ∧
  String.length "2025-06-01, 12:34" = 17%nat ∧
  ∀ t, (String.length (ingestionTimestamp t) <= 16)%nat.
Proof.
  split; [vm_compute; reflexivity|]. split; [vm_compute; reflexivity|].
  split; [reflexivity|].
  intros t. unfold ingestionTimestamp, slice0. apply substring_0_length.
Qed.

(** ** The read accessors *)

(** C9 (counterexample).  The claim says that [/data] answers with the
    placeholder when the store file is empty.  For an empty [results.json]
    it answers with the empty object. *)
Lemma data_of_blank_file_is_no_placeholder :
  data_file blankWorld = Blank ∧
  dataEndpoint blankWorld = EmptyObject ∧
  (¬ ∃ msg, dataEndpoint blankWorld = Placeholder msg) ∧
  campsites_file blankWorld = Blank ∧
  ¬ ∃ msg, getCampsitesEndpoint blankWorld = Placeholder msg.
Proof.
  split; [reflexivity|]. split; [reflexivity|]. split; [|split; [reflexivity|]].
  - intros [msg H]. discriminate H.
  - intros [msg H]. discriminate H.
Qed.

(** C9 (amended).  [/data] and [/getCampsites] never fail: they answer with
    the document of the file as it is, with the placeholder [{error: ...}]
    when the file is missing or cannot be read or parsed, and with the
    empty object [{}] when the file exists and is empty. *)
Theorem read_accessors_total (w : World) :
  dataEndpoint w =
    match data_file w with
    | Content doc => Doc doc
    | Blank => EmptyObject
    | Missing | Unreadable => Placeholder "No data found. Please run a scrape first."
    end ∧
  getCampsitesEndpoint w =
    match campsites_file w with
    | Content doc => Doc doc
    | Blank => EmptyObject
    | Missing | Unreadable =>
        Placeholder "No campsites found. Please check setup configuration."
    end.
Proof.
  unfold dataEndpoint, getCampsitesEndpoint, loadFile. cbn [read_file].
  split; [destruct (data_file w) | destruct (campsites_file w)]; reflexivity.
Qed.

(** ** The end-to-end scenario *)

Example end_to_end :
  let w' := (scrapeCampsite upstreamUp campsiteABC seededWorld).1.1 in
  (∃ r, currentResultsOf w' !! "ABC_from_ALLCAMPS_at_2025-06-01_#42" = Some r ∧
        supplier r = acme) ∧
  campsites_file w' = Content [setLastUpdate sampleInstant campsiteABC] ∧
  supplierCacheOf w' = {[ "42" := acme ]}.
Proof.
  cbv zeta. split; [|split].
  - eexists. split; vm_compute; reflexivity.
  - vm_compute. reflexivity.
  - vm_compute. reflexivity.
Qed.

(** * Further properties of the code *)

(** ** Files *)



(** X2.  [initializeSupplierCache] creates the cache file only when it is
    missing: afterwards the file exists, the cache [fetchSupplierData] sees
    is the same as before, an existing file (even an empty or unreadable
    one) is left alone, and a second call does nothing. *)
Theorem initializeSupplierCache_once (w : World) :
  supplier_cache_file (initializeSupplierCache w) ≠ Missing ∧
  supplierCacheOf (initializeSupplierCache w) = supplierCacheOf w ∧
  (supplier_cache_file w ≠ Missing -> initializeSupplierCache w = w) ∧
  initializeSupplierCache (initializeSupplierCache w) = initializeSupplierCache w.
Proof.
  unfold initializeSupplierCache.
  destruct (supplier_cache_file w) eqn:Hfile; cbn; rewrite ?Hfile;
    repeat split; try discriminate; try reflexivity; try contradiction.
  all: unfold supplierCacheOf, loadFile; cbn; now rewrite Hfile.
Qed.

Lemma initializeSupplierCache_once_witness :
  initializeSupplierCache cachedNullWorld = cachedNullWorld.
Proof.
  destruct (initializeSupplierCache_once cachedNullWorld) as (_ & _ & Hkeep & _).
  apply Hkeep. discriminate.
Defined.

(** ** More on the supplier cache *)

Lemma supplierAttempts_value env itemId cache fuel attempt w :
  (attempt < maxRetries)%nat -> (maxRetries - attempt <= fuel)%nat ->
  let v := (supplierAttempts env itemId cache fuel attempt w).2 in
  v = JNull ∨ truthy v = true.
Proof.
  revert attempt w. induction fuel as [|fuel IH]; intros attempt w Ha Hf;
    cbn [supplierAttempts]; [lia|].
  destruct (Nat.ltb_spec attempt maxRetries); [|lia].
  destruct (card_api env _ itemId) as [response_data|].
  - cbn. unfold js_or.
    destruct (truthy (optional_get response_data "supplier")) eqn:Ht; auto.
  - destruct (Nat.leb_spec maxRetries (S attempt)); [now left|].
    apply IH; lia.
Qed.

Lemma fetchSupplierData_value env itemId w :
  (fetchSupplierData env itemId w).2 = JNull ∨
  truthy (fetchSupplierData env itemId w).2 = true.
Proof.
  destruct (truthy (cachedSupplier w itemId)) eqn:Ht.
  - rewrite (fetchSupplierData_hit _ _ _ Ht). now right.
  - rewrite (fetchSupplierData_miss _ _ _ Ht).
    apply supplierAttempts_value; unfold maxRetries; lia.
Qed.

(** X3.  [fetchSupplierData] returns [null] or a truthy value: never
    [undefined], and never a falsy supplier such as [false], [0] or the
    empty string. *)
Theorem fetchSupplierData_null_or_truthy (env : Env) (itemId : ItemId) (w : World) :
  (fetchSupplierData env itemId w).2 = JNull ∨
  truthy (fetchSupplierData env itemId w).2 = true.
Proof.
  destruct (truthy (cachedSupplier w itemId)) eqn:Ht.
  - rewrite (fetchSupplierData_hit _ _ _ Ht). now right.
  - rewrite (fetchSupplierData_miss _ _ _ Ht).
    apply supplierAttempts_value; unfold maxRetries; lia.
Qed.

Lemma supplierAttempts_counts env itemId cache fuel attempt w :
  let w' := (supplierAttempts env itemId cache fuel attempt w).1 in
  (net_calls w <= net_calls w' <= net_calls w + (maxRetries - attempt))%nat ∧
  ((supplier_cache_file w' = supplier_cache_file w ∧
    writes_of SUPPLIER_CACHE_FILE w' = writes_of SUPPLIER_CACHE_FILE w) ∨
   (net_calls w < net_calls w')%nat ∧
    writes_of SUPPLIER_CACHE_FILE w' = S (writes_of SUPPLIER_CACHE_FILE w)) ∧
  writes_of DATA_FILE w' = writes_of DATA_FILE w ∧
  writes_of CAMPSITES_FILE w' = writes_of CAMPSITES_FILE w ∧
  writes_of DATES_FILE w' = writes_of DATES_FILE w.
Proof.
  revert attempt w. induction fuel as [|fuel IH]; intros attempt w;
    cbn [supplierAttempts].
  - cbn. split; [lia|]. split; [now left | now repeat split].
  - destruct (Nat.ltb_spec attempt maxRetries) as [Ha|Ha].
    2:{ cbn. split; [lia|]. split; [now left | now repeat split]. }
    unfold maxRetries in Ha |- *.
    destruct (card_api env _ itemId) as [response_data|].
    + cbn [fst]. unfold net_calls, writes_of. cbn.
      split; [lia|]. split; [|now repeat split].
      right. split; [lia | reflexivity].
    + destruct (Nat.leb_spec 3 (S attempt)).
      * cbn [fst]. unfold net_calls, writes_of. cbn.
        split; [lia|]. split; [now left | now repeat split].
      * specialize (IH (S attempt)
                      (delay 1000 (emit (EvGet itemId) (delay_random 0 200 w)))).
        cbv zeta in IH.
        destruct (supplierAttempts env itemId cache fuel (S attempt) _) as [w' v].
        cbn [fst] in *. revert IH. unfold maxRetries, net_calls, writes_of. cbn.
        intros ((Hlo & Hhi) & Hw & Hd & Hc & Hdt).
        split; [lia|]. split; [|now repeat split].
        destruct Hw as [Hquiet | [Hreq Hwr]]; [now left|].
        right. split; [lia | exact Hwr].
Qed.

(** X4.  One call of [fetchSupplierData] sends at most three card
    requests and writes the supplier cache at most once, and only after a
    request; it never touches the result store, the campsite registry or
    the date registry. *)
Theorem fetchSupplierData_bounded (env : Env) (itemId : ItemId) (w : World) :
  let w' := (fetchSupplierData env itemId w).1 in
  (net_calls w <= net_calls w' <= net_calls w + 3)%nat ∧
  ((supplier_cache_file w' = supplier_cache_file w ∧
    writes_of SUPPLIER_CACHE_FILE w' = writes_of SUPPLIER_CACHE_FILE w) ∨
   (net_calls w < net_calls w')%nat ∧
    writes_of SUPPLIER_CACHE_FILE w' = S (writes_of SUPPLIER_CACHE_FILE w)) ∧
  data_file w' = data_file w ∧ campsites_file w' = campsites_file w ∧
  dates_file w' = dates_file w ∧
  writes_of DATA_FILE w' = writes_of DATA_FILE w ∧
  writes_of CAMPSITES_FILE w' = writes_of CAMPSITES_FILE w ∧
  writes_of DATES_FILE w' = writes_of DATES_FILE w.
Proof.
  cbv zeta.
  pose proof (fetchSupplierData_frame env itemId w) as Hframe.
  destruct (truthy (cachedSupplier w itemId)) eqn:Ht.
  - rewrite (fetchSupplierData_hit _ _ _ Ht). cbn [fst].
    split; [lia|]. split; [now left | now repeat split].
  - rewrite (fetchSupplierData_miss _ _ _ Ht) in *.
    pose proof (supplierAttempts_counts env itemId (supplierCacheOf w) maxRetries 0 w)
      as Hcounts. cbv zeta in Hcounts.
    destruct (supplierAttempts env itemId (supplierCacheOf w) maxRetries 0 w) as [w' v].
    cbn [fst] in *.
    destruct Hframe as (Hd & Hc & Hdt & _).
    destruct Hcounts as (Hn & Hw & Hwd & Hwc & Hwdt).
    change (maxRetries - 0)%nat with 3%nat in Hn.
    split; [lia|]. split; [exact Hw|]. now repeat split.
Qed.

(** X5.  Retry: on a cache miss, when the first [k] card requests fail
    ([k] < 3) and the next one answers, the supplier of that answer (or
    [null] when it has none) is returned and stored under the item id, and
    [k + 1] requests were sent. *)
Theorem fetchSupplierData_retry_then_success (env : Env) (itemId : ItemId)
    (w : World) (k : nat) (response_data : JSValue) :
  truthy (cachedSupplier w itemId) = false ->
  (k < 3)%nat ->
  (∀ i, (i < k)%nat -> card_api env (net_calls w + i) itemId = None) ->
  card_api env (net_calls w + k) itemId = Some response_data ->
  let '(w', v) := fetchSupplierData env itemId w in
  v = js_or (optional_get response_data "supplier") JNull ∧
  supplier_cache_file w' = Content (<[ToString itemId := v]> (supplierCacheOf w)) ∧
  net_calls w' = (net_calls w + k + 1)%nat ∧
  writes_of SUPPLIER_CACHE_FILE w' = S (writes_of SUPPLIER_CACHE_FILE w).
Proof.
  intros Ht Hk Hfail Hok.
  rewrite (fetchSupplierData_miss _ _ _ Ht).
  cbn [supplierAttempts maxRetries Nat.ltb Nat.leb].
  destruct k as [|[|[|k]]]; [| | |lia].
  - rewrite Nat.add_0_r in Hok. rewrite net_calls_delay_random, Hok.
    unfold net_calls, writes_of. cbn.
    split; [reflexivity|]. split; [reflexivity|]. split; [lia | reflexivity].
  - pose proof (Hfail 0%nat ltac:(lia)) as H0. rewrite Nat.add_0_r in H0.
    rewrite Nat.add_1_r in Hok.
    rewrite net_calls_delay_random, H0.
    rewrite net_calls_delay_random, net_calls_delay, net_calls_emit_get,
      net_calls_delay_random, Hok.
    unfold net_calls, writes_of. cbn.
    split; [reflexivity|]. split; [reflexivity|]. split; [lia | reflexivity].
  - pose proof (Hfail 0%nat ltac:(lia)) as H0. rewrite Nat.add_0_r in H0.
    pose proof (Hfail 1%nat ltac:(lia)) as H1. rewrite Nat.add_1_r in H1.
    replace (net_calls w + 2)%nat with (S (S (net_calls w))) in Hok by lia.
    rewrite net_calls_delay_random, H0.
    rewrite net_calls_delay_random, net_calls_delay, net_calls_emit_get,
      net_calls_delay_random, H1.
    rewrite net_calls_delay_random, net_calls_delay, net_calls_emit_get,
      net_calls_delay_random, net_calls_delay, net_calls_emit_get,
      net_calls_delay_random, Hok.
    unfold net_calls, writes_of. cbn.
    split; [reflexivity|]. split; [reflexivity|]. split; [lia | reflexivity].
Qed.

Lemma fetchSupplierData_retry_then_success_witness :
  (fetchSupplierData upstreamFlaky (IdNumber 42) seededWorld).2 = acme ∧
  net_calls (fetchSupplierData upstreamFlaky (IdNumber 42) seededWorld).1 = 2%nat.
Proof.
  pose proof (fetchSupplierData_retry_then_success upstreamFlaky (IdNumber 42)
                seededWorld 1 (JObject [("supplier", acme)])) as H.
  destruct (fetchSupplierData upstreamFlaky (IdNumber 42) seededWorld) as [w' v].
  destruct H as (Hv & _ & Hn & _).
  - reflexivity.
  - lia.
  - intros i Hi. assert (i = 0%nat) as -> by lia. reflexivity.
  - reflexivity.
  - split; [exact Hv | exact Hn].
Defined.

Lemma supplierCacheOf_file w w' :
  supplier_cache_file w' = supplier_cache_file w -> supplierCacheOf w' = supplierCacheOf w.
Proof. unfold supplierCacheOf, loadFile. cbn [read_file]. now intros ->. Qed.

Lemma cache_kept_refl w : cache_kept w w.
Proof. now intros key u. Qed.

Lemma cache_kept_trans w1 w2 w3 : cache_kept w1 w2 -> cache_kept w2 w3 -> cache_kept w1 w3.
Proof. intros H1 H2 key u Hk Hu. apply H2; [|exact Hu]. now apply H1. Qed.

Lemma cache_kept_file w w' :
  supplier_cache_file w' = supplier_cache_file w -> cache_kept w w'.
Proof. intros H key u Hk _. now rewrite (supplierCacheOf_file _ _ H). Qed.

Lemma fetchSupplierData_cache_kept env itemId w :
  cache_kept w (fetchSupplierData env itemId w).1.
Proof.
  destruct (truthy (cachedSupplier w itemId)) eqn:Ht.
  - rewrite (fetchSupplierData_hit _ _ _ Ht). apply cache_kept_refl.
  - rewrite (fetchSupplierData_miss _ _ _ Ht).
    pose proof (supplierAttempts_spec env itemId (supplierCacheOf w) maxRetries 0 w) as H.
    destruct (supplierAttempts env itemId (supplierCacheOf w) maxRetries 0 w) as [w' v].
    cbn [fst].
    destruct H as (_ & _ & _ & _ & [(Hs & _)|(n & rd & _ & _ & _ & Hfile)]).
    + now apply cache_kept_file.
    + intros key u Hk Hu. unfold supplierCacheOf at 1, loadFile. cbn [read_file].
      rewrite Hfile. cbn [as_object].
      destruct (decide (ToString itemId = key)) as [<-|Hne].
      * unfold cachedSupplier in Ht. rewrite Hk in Ht. cbn in Ht. congruence.
      * now rewrite lookup_insert_ne.
Qed.

Lemma fetchSupplierData_result_cached env itemId w :
  truthy (fetchSupplierData env itemId w).2 = true ->
  cachedSupplier (fetchSupplierData env itemId w).1 itemId
  = (fetchSupplierData env itemId w).2.
Proof.
  destruct (truthy (cachedSupplier w itemId)) eqn:Ht.
  - rewrite (fetchSupplierData_hit _ _ _ Ht). reflexivity.
  - rewrite (fetchSupplierData_miss _ _ _ Ht).
    pose proof (supplierAttempts_spec env itemId (supplierCacheOf w) maxRetries 0 w) as H.
    destruct (supplierAttempts env itemId (supplierCacheOf w) maxRetries 0 w) as [w' v].
    cbn [fst snd]. intros Hv.
    destruct H as (_ & _ & _ & _ & [(_ & Hnull & _)|(n & rd & _ & _ & _ & Hfile)]).
    + destruct Hnull as [-> | ->]; discriminate.
    + unfold cachedSupplier, supplierCacheOf, loadFile. cbn [read_file].
      rewrite Hfile. cbn [as_object]. now rewrite lookup_insert_eq.
Qed.

(** X6.  Memoisation: once [fetchSupplierData] has returned a supplier
    other than [null], every later call for the same item id, whatever the
    network does, returns the same supplier without a request or a
    write. *)
Theorem supplier_is_memoised (env env' : Env) (itemId : ItemId) (w : World) :
  let '(w', v) := fetchSupplierData env itemId w in
  v ≠ JNull ->
  fetchSupplierData env' itemId w' = (w', v).
Proof.
  pose proof (fetchSupplierData_value env itemId w) as Hv.
  pose proof (fetchSupplierData_result_cached env itemId w) as Hc.
  destruct (fetchSupplierData env itemId w) as [w' v]. cbn [fst snd] in *.
  intros Hnn. destruct Hv as [->|Hv]; [contradiction|].
  specialize (Hc Hv).
  rewrite fetchSupplierData_hit; rewrite Hc; [reflexivity | exact Hv].
Qed.

Lemma supplier_is_memoised_witness :
  fetchSupplierData upstreamDown (IdNumber 42)
    (fetchSupplierData upstreamUp (IdNumber 42) seededWorld).1
  = ((fetchSupplierData upstreamUp (IdNumber 42) seededWorld).1, acme).
Proof.
  pose proof (supplier_is_memoised upstreamUp upstreamDown (IdNumber 42) seededWorld) as H.
  destruct (fetchSupplierData upstreamUp (IdNumber 42) seededWorld) as [w' v] eqn:Hrun.
  assert (Hv : v = acme).
  { pose proof Hrun as Hrun'. vm_compute in Hrun'. now injection Hrun' as _ <-. }
  cbn [fst]. rewrite H; [now rewrite Hv|].
  rewrite Hv. discriminate.
Defined.

Lemma transformItems_cache_kept env c date ts combined acc w :
  cache_kept w (transformItems env c date ts combined acc w).1.
Proof.
  revert acc w. induction combined as [|item rest IH]; intros acc w;
    cbn [transformItems]; [apply cache_kept_refl|].
  pose proof (fetchSupplierData_cache_kept env (item_id item) w) as H1.
  destruct (fetchSupplierData env (item_id item) w) as [w1 sup]. cbn [fst] in H1.
  eapply cache_kept_trans; [exact H1|].
  eapply cache_kept_trans; [|apply IH].
  now apply cache_kept_file.
Qed.

Lemma fetchData_cache_kept env body c date w :
  cache_kept w (fetchData env body c date w).1.
Proof.
  destruct (searchFails env (net_calls w) body) eqn:Hf.
  - rewrite (fetchData_fails _ _ _ _ _ Hf). now apply cache_kept_file.
  - unfold searchFails in Hf.
    destruct (search_api env (net_calls w) body) as [[[d|]]|] eqn:Hs; try discriminate.
    rewrite (fetchData_succeeds _ _ _ _ _ _ Hs). cbv zeta.
    pose proof (transformItems_cache_kept env c date
                  (ingestionTimestamp (now env (emit (EvPost body) w)))
                  (combinedListings d) ∅ (emit (EvPost body) w)) as H.
    destruct (transformItems _ _ _ _ _ _ _) as [w2 m]. cbn [fst] in *.
    eapply cache_kept_trans; [|exact H]. now apply cache_kept_file.
Qed.

Lemma scrapeDates_cache_kept env c dates acc w :
  cache_kept w (scrapeDates env c dates acc w).1.
Proof.
  revert acc w. induction dates as [|[label date] rest IH]; intros acc w;
    cbn [scrapeDates]; [apply cache_kept_refl|].
  pose proof (fetchData_cache_kept env (createRequestBody date c) c date w) as H1.
  destruct (fetchData env (createRequestBody date c) c date w) as [w1 fetched].
  cbn [fst] in H1.
  eapply cache_kept_trans; [exact H1|].
  eapply cache_kept_trans; [|apply IH].
  now apply cache_kept_file.
Qed.

Lemma scrapeCampsite_supplier_cache env c w :
  supplier_cache_file (scrapeCampsite env c w).1.1
  = supplier_cache_file (scrapeDates env c (datesOf w) ∅ w).1.
Proof.
  unfold scrapeCampsite. fold (datesOf w).
  destruct (scrapeDates env c (datesOf w) ∅ w) as [w1 m].
  destruct (0 <? size m)%nat; [|reflexivity].
  destruct (loadFile CAMPSITES_FILE w EmptyObject) as [l| |[]]; [|reflexivity].
  destruct (list_find _ l) as [[i x]|]; reflexivity.
Qed.

(** X7.  A scrape never loses a resolved supplier: every non-falsy entry
    of the supplier cache is still there, with the same value, after
    [scrapeCampsite]. *)
Theorem scrape_keeps_resolved_suppliers (env : Env) (c : Campsite) (w : World)
    (key : string) (u : JSValue) :
  supplierCacheOf w !! key = Some u ->
  truthy u = true ->
  supplierCacheOf (scrapeCampsite env c w).1.1 !! key = Some u.
Proof.
  intros Hk Hu.
  rewrite (supplierCacheOf_file _ _ (scrapeCampsite_supplier_cache env c w)).
  now apply (scrapeDates_cache_kept env c (datesOf w) ∅ w).
Qed.

Lemma scrape_keeps_resolved_suppliers_witness :
  supplierCacheOf (scrapeCampsite upstreamUp campsiteABC cachedAcmeWorld).1.1 !! "42"
  = Some acme.
Proof.
  apply (scrape_keeps_resolved_suppliers upstreamUp campsiteABC cachedAcmeWorld).
  - reflexivity.
  - reflexivity.
Defined.

(** ** More on [fetchData] *)

Lemma compositeKey_id_inj campsiteCode source date i j :
  compositeKey campsiteCode source date i = compositeKey campsiteCode source date j ->
  ToString i = ToString j.
Proof. unfold compositeKey. intros H. now do 6 apply append_inv_head in H. Qed.

Lemma transformItems_app env c date ts l1 l2 acc w :
  transformItems env c date ts (l1 ++ l2) acc w =
    let '(w1, m1) := transformItems env c date ts l1 acc w in
    transformItems env c date ts l2 m1 w1.
Proof.
  revert acc w. induction l1 as [|item l1 IH]; intros acc w; [reflexivity|].
  cbn [app transformItems].
  destruct (fetchSupplierData env (item_id item) w) as [w1 sup]. apply IH.
Qed.

Lemma transformItems_untouched env c date ts combined acc w k :
  (∀ item, item ∈ combined ->
           compositeKey (code c) WEBSITE_NAME date (item_id item) ≠ k) ->
  (transformItems env c date ts combined acc w).2 !! k = acc !! k.
Proof.
  revert acc w. induction combined as [|item rest IH]; intros acc w Hk;
    cbn [transformItems]; [reflexivity|].
  destruct (fetchSupplierData env (item_id item) w) as [w1 sup].
  rewrite IH.
  - apply lookup_insert_ne. apply Hk. apply list_elem_of_here.
  - intros item' Hin. apply Hk. now apply list_elem_of_further.
Qed.

Lemma transformItems_size env c date ts combined acc w :
  (size (transformItems env c date ts combined acc w).2
   <= size acc + length combined)%nat.
Proof.
  revert acc w. induction combined as [|item rest IH]; intros acc w;
    cbn [transformItems length]; [cbn; lia|].
  destruct (fetchSupplierData env (item_id item) w) as [w1 sup].
  etransitivity; [apply IH|].
  rewrite map_size_insert. destruct (acc !! _); cbn; lia.
Qed.

(** X8.  When two listings of one response have the same item id, the
    later one wins: the record under an item's key is built from the last
    listing of [accommodations ++ alternatives] with that id, so an
    alternative replaces the accommodation of the same id; the returned
    mapping has at most as many records as the response has listings. *)
Theorem fetchData_last_listing_wins (env : Env) (body : RequestBody) (c : Campsite)
    (date : string) (w : World) (d : SearchData) (before after : list Listing)
    (x : Listing) :
  search_api env (net_calls w) body = Some (mkRawData (Some d)) ->
  or_empty (accommodations d) ++ or_empty (alternatives d) = before ++ x :: after ->
  (∀ y, y ∈ after -> ToString (item_id y) ≠ ToString (item_id x)) ->
  ∃ w' m sup,
    fetchData env body c date w = (w', Some m) ∧
    m !! compositeKey (code c) "ALLCAMPS" date (item_id x)
      = Some (transform x sup c date
                (ingestionTimestamp (now env (emit (EvPost body) w)))) ∧
    (size m <= length (before ++ x :: after))%nat.
Proof.
  intros Hs Hsplit Hlast.
  rewrite (fetchData_succeeds _ _ _ _ _ _ Hs). cbv zeta.
  unfold combinedListings. rewrite Hsplit.
  set (ts := ingestionTimestamp (now env (emit (EvPost body) w))).
  pose proof (transformItems_size env c date ts (before ++ x :: after) ∅
                (emit (EvPost body) w)) as Hsize.
  rewrite map_size_empty in Hsize.
  rewrite transformItems_app in Hsize |- *.
  destruct (transformItems env c date ts before ∅ (emit (EvPost body) w)) as [w1 m1].
  cbn [transformItems] in Hsize |- *.
  destruct (fetchSupplierData env (item_id x) w1) as [w2 sup].
  pose proof (transformItems_untouched env c date ts after
                (<[compositeKey (code c) WEBSITE_NAME date (item_id x)
                   := transform x sup c date ts]> m1)
                (delay_random 0 100 w2)
                (compositeKey (code c) WEBSITE_NAME date (item_id x))) as Hkeep.
  destruct (transformItems env c date ts after _ _) as [w' m]. cbn [snd] in *.
  exists w', m, sup. split; [reflexivity|]. split; [|exact Hsize].
  unfold WEBSITE_NAME in Hkeep |- *.
  rewrite Hkeep; [apply lookup_insert_eq|].
  intros y Hy Heq. apply compositeKey_id_inj in Heq. exact (Hlast y Hy Heq).
Qed.

Lemma fetchData_last_listing_wins_witness :
  ∃ w' m r,
    fetchData upstreamDuplicate (createRequestBody "2025-06-01" campsiteABC)
      campsiteABC "2025-06-01" seededWorld = (w', Some m) ∧
    m !! "ABC_from_ALLCAMPS_at_2025-06-01_#42" = Some r ∧
    rec_name r = JString "Mobile home (alternative)" ∧
    (size m <= 2)%nat.
Proof.
  destruct (fetchData_last_listing_wins upstreamDuplicate
              (createRequestBody "2025-06-01" campsiteABC) campsiteABC "2025-06-01"
              seededWorld duplicateSearchData [listing42] [] listing42alt)
    as (w' & m & sup & Hrun & Hk & Hsize).
  - reflexivity.
  - reflexivity.
  - intros y Hy. inversion Hy.
  - eexists w', m, _. split; [exact Hrun|]. split; [exact Hk|].
    split; [reflexivity | exact Hsize].
Defined.





(** ** Pacing of the network requests *)

Lemma paced_app r evs1 evs2 :
  paced r (evs1 ++ evs2) =
    match paced r evs1 with
    | Some r' => paced r' evs2
    | None => None
    end.
Proof.
  revert r. induction evs1 as [|e evs1 IH]; intros r; cbn [app paced]; [reflexivity|].
  destruct (is_request e); [destruct r; [apply IH | reflexivity]|].
  destruct (is_delay e); apply IH.
Qed.

Lemma supplierAttempts_paced env itemId cache fuel attempt w :
  ∃ evs, extends w (supplierAttempts env itemId cache fuel attempt w).1 evs ∧
         ∀ r, is_Some (paced r (List.rev evs)).
Proof.
  revert attempt w. induction fuel as [|fuel IH]; intros attempt w;
    cbn [supplierAttempts].
  - exists []. split; [apply extends_refl | cbn; eauto].
  - destruct (attempt <? maxRetries)%nat.
    2:{ exists []. split; [apply extends_refl | cbn; eauto]. }
    destruct (card_api env _ itemId) as [response_data|].
    + exists [EvWrite SUPPLIER_CACHE_FILE; EvGet itemId; EvJitter 0 200].
      split; [reflexivity | cbn; eauto].
    + destruct (maxRetries <=? S attempt)%nat.
      * exists [EvGet itemId; EvJitter 0 200]. split; [reflexivity | cbn; eauto].
      * destruct (IH (S attempt)
                    (delay 1000 (emit (EvGet itemId) (delay_random 0 200 w))))
          as (evs & Hext & Hpaced).
        exists (evs ++ [EvDelay 1000; EvGet itemId; EvJitter 0 200]). split.
        -- unfold extends in *. rewrite Hext. cbn. now rewrite <- app_assoc.
        -- intros r. rewrite List.rev_app_distr. cbn. apply Hpaced.
Qed.

Lemma fetchSupplierData_paced env itemId w :
  ∃ evs, extends w (fetchSupplierData env itemId w).1 evs ∧
         ∀ r, is_Some (paced r (List.rev evs)).
Proof.
  unfold fetchSupplierData. destruct (truthy _).
  - exists []. split; [apply extends_refl | cbn; eauto].
  - apply supplierAttempts_paced.
Qed.

Lemma transformItems_paced env c date ts combined acc w :
  ∃ evs, extends w (transformItems env c date ts combined acc w).1 evs ∧
         ∀ r, is_Some (paced r (List.rev evs)) ∧
              (combined ≠ [] -> paced r (List.rev evs) = Some true).
Proof.
  revert acc w. induction combined as [|item rest IH]; intros acc w;
    cbn [transformItems].
  - exists []. split; [apply extends_refl|]. intros r. cbn. split; [eauto | congruence].
  - destruct (fetchSupplierData_paced env (item_id item) w) as (evs1 & Hext1 & Hp1).
    destruct (fetchSupplierData env (item_id item) w) as [w1 sup]. cbn [fst] in Hext1.
    match goal with
    | |- context [transformItems env c date ts rest ?m ?w0] =>
        destruct (IH m w0) as (evs2 & Hext2 & Hp2)
    end.
    exists (evs2 ++ EvJitter 0 100 :: evs1). split.
    + unfold extends in *. rewrite Hext2. cbn. rewrite Hext1. now rewrite <- app_assoc.
    + intros r. rewrite List.rev_app_distr. cbn [List.rev].
      rewrite <- app_assoc, !paced_app.
      destruct (Hp1 r) as [r1 ->]. cbn [paced is_request is_delay app].
      destruct (Hp2 true) as [[r2 Hr2] Hne]. split; [rewrite Hr2; eauto|].
      intros _. destruct rest as [|item' rest'].
      * destruct (IH (<[compositeKey (code c) WEBSITE_NAME date (item_id item)
                        := transform item sup c date ts]> acc)
                     (delay_random 0 100 w1)) as (evs0 & Hext0 & _).
        cbn [transformItems fst] in Hext0, Hext2.
        unfold extends in Hext0, Hext2.
        assert (evs2 = []) as ->.
        { apply (app_inv_tail (trace (delay_random 0 100 w1))).
          cbn [app]. symmetry. exact Hext2. }
        reflexivity.
      * apply Hne. discriminate.
Qed.

Lemma fetchData_paced env body c date w :
  ∃ evs, extends w (fetchData env body c date w).1 evs ∧
         is_Some (paced true (List.rev evs)).
Proof.
  destruct (searchFails env (net_calls w) body) eqn:Hf.
  - rewrite (fetchData_fails _ _ _ _ _ Hf). exists [EvPost body].
    split; [reflexivity | cbn; eauto].
  - unfold searchFails in Hf.
    destruct (search_api env (net_calls w) body) as [[[d|]]|] eqn:Hs; try discriminate.
    rewrite (fetchData_succeeds _ _ _ _ _ _ Hs). cbv zeta.
    destruct (transformItems_paced env c date
                (ingestionTimestamp (now env (emit (EvPost body) w)))
                (combinedListings d) ∅ (emit (EvPost body) w)) as (evs & Hext & Hp).
    destruct (transformItems _ _ _ _ _ _ _) as [w2 m]. cbn [fst] in *.
    exists (evs ++ [EvPost body]). split.
    + unfold extends in *. rewrite Hext. cbn. now rewrite <- app_assoc.
    + rewrite List.rev_app_distr. cbn. apply Hp.
Qed.

Lemma scrapeDates_paced env c dates acc w :
  paced_run w (scrapeDates env c dates acc w).1.
Proof.
  revert acc w. induction dates as [|[label date] rest IH]; intros acc w;
    cbn [scrapeDates].
  - exists []. split; [apply extends_refl | reflexivity].
  - destruct (fetchData_paced env (createRequestBody date c) c date w)
      as (evs1 & Hext1 & [r1 Hp1]).
    destruct (fetchData env (createRequestBody date c) c date w) as [w1 fetched].
    cbn [fst] in Hext1.
    match goal with
    | |- context [scrapeDates env c rest ?m ?w0] =>
        destruct (IH m w0) as (evs2 & Hext2 & Hp2)
    end.
    exists (evs2 ++ EvJitter 1000 1000 :: evs1). split.
    + unfold extends in *. rewrite Hext2. cbn. rewrite Hext1. now rewrite <- app_assoc.
    + rewrite List.rev_app_distr. cbn [List.rev].
      rewrite <- app_assoc, !paced_app, Hp1. cbn. exact Hp2.
Qed.

Lemma paced_run_then_write w w' p doc :
  paced_run w w' -> paced_run w (saveFile p doc w').
Proof.
  intros (evs & Hext & Hp). exists (EvWrite p :: evs). split.
  - unfold extends in *. destruct p; cbn; now rewrite Hext.
  - cbn [List.rev]. rewrite paced_app, Hp. reflexivity.
Qed.


(** X10.  Throttling: within a scrape no two network requests follow each
    other without a [delay] call in between (every card request is
    preceded by its jitter, every date ends with the 1-2 s jitter), and
    the scrape ends with a delay behind its last request. *)
Theorem scrape_requests_are_paced (env : Env) (c : Campsite) (w : World) :
  ∃ evs,
    trace (scrapeCampsite env c w).1.1 = evs ++ trace w ∧
    paced true (List.rev evs) = Some true.
Proof.
  change (paced_run w (scrapeCampsite env c w).1.1).
  unfold scrapeCampsite. fold (datesOf w).
  pose proof (scrapeDates_paced env c (datesOf w) ∅ w) as H.
  destruct (scrapeDates env c (datesOf w) ∅ w) as [w1 m]. cbn [fst] in H.
  destruct (0 <? size m)%nat.
  - destruct (loadFile CAMPSITES_FILE w EmptyObject) as [l| |[]].
    + destruct (list_find _ l) as [[i x]|]; cbn [fst];
        repeat apply paced_run_then_write; exact H.
    + cbn [fst]. now apply paced_run_then_write.
  - cbn [fst]. now apply paced_run_then_write.
Qed.

(** ** The registry after a scrape *)

Lemma scrapeCampsite_cases env c w :
  scrapeCampsite env c w =
    let w2 := afterResultsSaved env c w in
    let t := now env w2 in
    if (0 <? size (newResultsOf env c w))%nat then
      match loadFile (D := Empty_set) CAMPSITES_FILE w EmptyObject with
      | Doc l =>
          match list_find (fun x => code x = code c) l with
          | Some (i, _) =>
              (saveFile CAMPSITES_FILE (alter (setLastUpdate t) i l) w2,
               setLastUpdate t c, Returned)
          | None => (w2, setLastUpdate t c, Returned)
          end
      | EmptyObject => (w2, setLastUpdate t c, TypeError)
      | Placeholder d => match d with end
      end
    else (w2, c, Returned).
Proof.
  unfold scrapeCampsite, afterResultsSaved, newResultsOf, currentResultsOf.
  fold (datesOf w).
  destruct (scrapeDates env c (datesOf w) ∅ w) as [w1 m]. reflexivity.
Qed.

Lemma size_pos_nonempty {A} (m : gmap string A) : (0 <? size m)%nat = true ↔ m ≠ ∅.
Proof.
  rewrite Nat.ltb_lt. split.
  - intros H ->. rewrite map_size_empty in H. lia.
  - intros H. apply map_size_non_empty_iff in H. lia.
Qed.

Lemma afterResultsSaved_files env c w :
  data_file (afterResultsSaved env c w)
  = Content (newResultsOf env c w ∪ removeCampsite (code c) (currentResultsOf w)) ∧
  campsites_file (afterResultsSaved env c w) = campsites_file w ∧
  writes_of CAMPSITES_FILE (afterResultsSaved env c w) = writes_of CAMPSITES_FILE w.
Proof.
  unfold afterResultsSaved.
  pose proof (scrapeDates_spec env c (datesOf w) ∅ w) as H.
  destruct (scrapeDates env c (datesOf w) ∅ w) as [w1 m].
  destruct H as (_ & Hc & _ & (evs & Hext & Hevs & _) & _). cbn [fst].
  split; [reflexivity|]. split; [exact Hc|].
  unfold writes_of. cbn [saveFile emit trace write_file]. rewrite Hext.
  cbn [List.filter is_write]. rewrite bool_decide_eq_false_2 by discriminate.
  rewrite List.filter_app, length_app.
  fold (count (is_write CAMPSITES_FILE) evs).
  rewrite (count_none (is_write CAMPSITES_FILE) evs); [reflexivity|].
  eapply Forall_impl; [exact Hevs|]. apply loop_event_not_write_campsites.
Qed.

(** X11.  Stamping: when a scrape collects at least one record and the
    registry read at its start holds the campsite's code, the registry is
    saved once more with [lastUpdate] set on the first entry of that code
    and on no other entry; the stamp is the clock reading taken after the
    result store was saved, and the caller's campsite object carries the
    same stamp. *)
Theorem lastUpdate_is_stamped (env : Env) (c : Campsite) (w : World)
    (l : list Campsite) (i : nat) (x : Campsite) :
  campsites_file w = Content l ->
  newResultsOf env c w ≠ ∅ ->
  l !! i = Some x ->
  code x = code c ->
  (∀ j y, l !! j = Some y -> (j < i)%nat -> code y ≠ code c) ->
  let '(w', c', completion) := scrapeCampsite env c w in
  let t := now env (afterResultsSaved env c w) in
  completion = Returned ∧
  c' = setLastUpdate t c ∧
  ∃ l', campsites_file w' = Content l' ∧
        length l' = length l ∧
        l' !! i = Some (setLastUpdate t x) ∧
        (∀ j, j ≠ i -> l' !! j = l !! j) ∧
        writes_of CAMPSITES_FILE w' = S (writes_of CAMPSITES_FILE w).
Proof.
  intros Hfile Hnew Hi Hx Hfirst.
  rewrite scrapeCampsite_cases. cbv zeta.
  rewrite (proj2 (size_pos_nonempty _) Hnew).
  unfold loadFile. cbn [read_file]. rewrite Hfile.
  assert (Hfind : list_find (fun y => code y = code c) l = Some (i, x)).
  { apply list_find_Some. split; [exact Hi|]. split; [exact Hx | exact Hfirst]. }
  rewrite Hfind.
  split; [reflexivity|]. split; [reflexivity|].
  exists (alter (setLastUpdate (now env (afterResultsSaved env c w))) i l).
  split; [reflexivity|]. split; [apply length_alter|].
  split; [rewrite list_lookup_alter_eq, Hi; reflexivity|].
  split; [intros j Hj; apply list_lookup_alter_ne; congruence|].
  destruct (afterResultsSaved_files env c w) as (_ & _ & Hw).
  rewrite (extends_writes_of _ _ _ _ (extends_saveFile _ _ _)), Hw. reflexivity.
Qed.

Lemma lastUpdate_is_stamped_witness :
  campsites_file (scrapeCampsite upstreamUp campsiteABC registryWorld).1.1
  = Content [campsite10h; campsite72h; setLastUpdate sampleInstant campsiteABC].
Proof.
  pose proof (lastUpdate_is_stamped upstreamUp campsiteABC registryWorld
                sampleRegistry 2 campsiteABC) as H.
  destruct (scrapeCampsite upstreamUp campsiteABC registryWorld) as [[w' c'] completion].
  destruct H as (_ & _ & l' & Hfile & Hlen & Hi & Hother & _).
  - reflexivity.
  - intros Hempty. apply (f_equal size) in Hempty. vm_compute in Hempty. discriminate.
  - reflexivity.
  - reflexivity.
  - intros j y Hj Hlt. destruct j as [|[|j]]; [| |lia];
      cbn in Hj; injection Hj as <-; discriminate.
  - cbn [fst]. rewrite Hfile. f_equal.
    pose proof (Hother 0%nat ltac:(lia)) as H0. pose proof (Hother 1%nat ltac:(lia)) as H1.
    destruct l' as [|a [|b [|d [|e l']]]]; cbn in Hlen; try lia.
    cbn in H0, H1, Hi. now injection H0 as ->; injection H1 as ->; injection Hi as ->.
Defined.

(** X12.  An unknown code is not fatal: when the registry read at the
    start of the scrape has no entry of the campsite's code, the scrape
    still saves the result store and returns, and the registry file is
    neither changed nor written. *)
Theorem unknown_code_is_not_fatal (env : Env) (c : Campsite) (w : World)
    (l : list Campsite) :
  campsites_file w = Content l ->
  (∀ x, x ∈ l -> code x ≠ code c) ->
  let '(w', _, completion) := scrapeCampsite env c w in
  completion = Returned ∧
  data_file w' = Content (newResultsOf env c w
                            ∪ removeCampsite (code c) (currentResultsOf w)) ∧
  campsites_file w' = Content l ∧
  writes_of CAMPSITES_FILE w' = writes_of CAMPSITES_FILE w.
Proof.
  intros Hfile Hnone.
  rewrite scrapeCampsite_cases. cbv zeta.
  destruct (afterResultsSaved_files env c w) as (Hd & Hc & Hw). rewrite Hfile in Hc.
  unfold loadFile. cbn [read_file]. rewrite Hfile.
  assert (Hfind : list_find (fun y => code y = code c) l = None).
  { apply list_find_None, Forall_forall. exact Hnone. }
  rewrite Hfind.
  destruct (0 <? size (newResultsOf env c w))%nat; repeat split; assumption.
Qed.

Lemma unknown_code_is_not_fatal_witness :
  campsites_file (scrapeCampsite upstreamUp campsiteXYZ seededWorld).1.1
  = Content [campsiteABC] ∧
  (scrapeCampsite upstreamUp campsiteXYZ seededWorld).2 = Returned.
Proof.
  pose proof (unknown_code_is_not_fatal upstreamUp campsiteXYZ seededWorld
                [campsiteABC]) as H.
  destruct (scrapeCampsite upstreamUp campsiteXYZ seededWorld) as [[w' c'] completion].
  destruct H as (Hret & _ & Hfile & _).
  - reflexivity.
  - intros x Hx. apply list_elem_of_singleton in Hx as ->. discriminate.
  - split; [exact Hfile | exact Hret].
Defined.

(** X13.  A registry that cannot be read as an array (missing, unreadable
    or empty file) makes a scrape that collected records fail with a
    [TypeError], but only after the result store has been saved; the
    registry file stays as it was. *)
Theorem unusable_registry_fails_after_saving (env : Env) (c : Campsite) (w : World) :
  registryUnusable w ->
  newResultsOf env c w ≠ ∅ ->
  let '(w', _, completion) := scrapeCampsite env c w in
  completion = TypeError ∧
  data_file w' = Content (newResultsOf env c w
                            ∪ removeCampsite (code c) (currentResultsOf w)) ∧
  campsites_file w' = campsites_file w.
Proof.
  intros Hbad Hnew.
  rewrite scrapeCampsite_cases. cbv zeta.
  rewrite (proj2 (size_pos_nonempty _) Hnew).
  destruct (afterResultsSaved_files env c w) as (Hd & Hc & _).
  unfold registryUnusable in Hbad. unfold loadFile. cbn [read_file].
  destruct (campsites_file w); try contradiction; repeat split; assumption.
Qed.

Lemma unusable_registry_fails_after_saving_witness :
  (scrapeCampsite upstreamUp campsiteABC noRegistryWorld).2 = TypeError ∧
  is_Some (currentResultsOf (scrapeCampsite upstreamUp campsiteABC noRegistryWorld).1.1
             !! "ABC_from_ALLCAMPS_at_2025-06-01_#42").
Proof.
  pose proof (unusable_registry_fails_after_saving upstreamUp campsiteABC
                noRegistryWorld) as H.
  destruct (scrapeCampsite upstreamUp campsiteABC noRegistryWorld)
    as [[w' c'] completion].
  destruct H as (Hret & Hdata & _).
  - exact I.
  - intros Hempty. apply (f_equal size) in Hempty. vm_compute in Hempty. discriminate.
  - split; [exact Hret|]. cbn [fst].
    unfold currentResultsOf, loadFile. cbn [read_file]. rewrite Hdata.
    vm_compute. eauto.
Defined.

(** ** The triggers *)

Lemma isStale_later t t' c : isStale t c -> t <= t' -> isStale t' c.
Proof. unfold isStale. destruct (lastUpdate c); [lia | auto]. Qed.

Lemma selectCandidate_Some_stale l t c :
  selectCandidate l t = Some c -> In c l ∧ isStale t c.
Proof.
  unfold selectCandidate. intros H. apply List.find_some in H as [Hin Hc].
  split; [exact Hin | now apply needsUpdate_true].
Qed.

Lemma selectCandidate_finds l t c : In c l -> isStale t c -> is_Some (selectCandidate l t).
Proof.
  intros Hin Hc. unfold selectCandidate.
  destruct (List.find _ l) eqn:Hfind; [eauto|].
  pose proof (List.find_none _ _ Hfind c Hin) as Hf.
  apply needsUpdate_false in Hf. contradiction.
Qed.

(** X14.  A scrape that collects no record, be it because every search
    failed or because every response was empty, does not stamp the
    campsite: after [GET /scrape] the registry is as before, so the same
    campsite is still stale and the selector keeps finding a candidate at
    every later instant. *)
Theorem empty_scrape_leaves_candidate_stale (env : Env) (w : World)
    (l : list Campsite) (c : Campsite) :
  campsites_file w = Content l ->
  selectCandidate l (now env w) = Some c ->
  newResultsOf env c w = ∅ ->
  let '(w', completion) := scrapeEndpoint env w in
  completion = Returned ∧
  campsites_file w' = Content l ∧
  data_file w' = Content (removeCampsite (code c) (currentResultsOf w)) ∧
  ∀ t', now env w <= t' -> isStale t' c ∧ is_Some (selectCandidate l t').
Proof.
  intros Hfile Hsel Hnew.
  unfold scrapeEndpoint, loadFile. cbn [read_file]. rewrite Hfile, Hsel.
  rewrite scrapeCampsite_cases. cbv zeta. rewrite Hnew, map_size_empty.
  cbn [Nat.ltb Nat.leb].
  destruct (afterResultsSaved_files env c w) as (Hd & Hc & _).
  rewrite Hnew, (left_id_L ∅ (∪)) in Hd. rewrite Hfile in Hc.
  split; [reflexivity|]. split; [exact Hc|]. split; [exact Hd|].
  intros t' Ht'. apply selectCandidate_Some_stale in Hsel as [Hin Hstale].
  pose proof (isStale_later _ _ _ Hstale Ht') as Hlater.
  split; [exact Hlater | now apply (selectCandidate_finds l t' c)].
Qed.

Lemma empty_scrape_leaves_candidate_stale_witness :
  campsites_file (scrapeEndpoint upstreamEmpty registryWorld).1 = Content sampleRegistry ∧
  is_Some (selectCandidate sampleRegistry (sampleInstant + hours 1)).
Proof.
  pose proof (empty_scrape_leaves_candidate_stale upstreamEmpty registryWorld
                sampleRegistry campsite72h) as H.
  destruct (scrapeEndpoint upstreamEmpty registryWorld) as [w' completion].
  destruct H as (_ & Hfile & _ & Hlater).
  - reflexivity.
  - reflexivity.
  - vm_compute. reflexivity.
  - split; [exact Hfile|].
    apply (Hlater (sampleInstant + hours 1)). vm_compute. discriminate.
Defined.





(** X16.  [GET /forceScrape] with a registry that is an array: it answers
    400 when the code is missing or empty and 404 when no entry has the
    code, and leaves the world untouched in both cases; otherwise it
    answers 200 and scrapes the first entry with that code, whatever its
    [lastUpdate] is. *)
Theorem forceScrape_statuses (env : Env) (campsiteCode : option string) (w : World)
    (l : list Campsite) :
  campsites_file w = Content l ->
  let '(status, w', completion) := forceScrapeEndpoint env campsiteCode w in
  (status = 400 ∧ w' = w ∧ (campsiteCode = None ∨ campsiteCode = Some "")) ∨
  (status = 404 ∧ w' = w ∧
   ∃ s, campsiteCode = Some s ∧ s ≠ "" ∧ Forall (fun x => code x ≠ s) l) ∨
  (status = 200 ∧
   ∃ s before x after,
     campsiteCode = Some s ∧ s ≠ "" ∧ l = before ++ x :: after ∧ code x = s ∧
     Forall (fun y => code y ≠ s) before ∧
     w' = (scrapeCampsite env x w).1.1 ∧ completion = (scrapeCampsite env x w).2).
Proof.
  intros Hfile. unfold forceScrapeEndpoint, loadFile. cbn [read_file]. rewrite Hfile.
  destruct campsiteCode as [s|]; [|left; auto].
  destruct s as [|ch s]; [left; auto|].
  pose proof (find_first (fun c => String.eqb (code c) (String ch s)) l) as Hfind.
  destruct (List.find _ l) as [x|].
  - destruct Hfind as (before & after & Heq & Hx & Hbefore).
    destruct (scrapeCampsite env x w) as [[w' c'] completion] eqn:Hrun. cbn [fst snd].
    right. right.
    split; [reflexivity|]. exists (String ch s), before, x, after.
    split; [reflexivity|]. split; [discriminate|]. split; [exact Heq|].
    split; [now apply String.eqb_eq|]. split; [|now rewrite Hrun].
    eapply Forall_impl; [exact Hbefore|]. intros y Hy. now apply String.eqb_neq.
  - right. left. split; [reflexivity|]. split; [reflexivity|].
    exists (String ch s). split; [reflexivity|]. split; [discriminate|].
    eapply Forall_impl; [exact Hfind|]. intros y Hy. now apply String.eqb_neq.
Qed.

Lemma forceScrape_statuses_witness :
  (forceScrapeEndpoint upstreamUp (Some "TEN") freshWorld).1.1 = 200 ∧
  (forceScrapeEndpoint upstreamUp (Some "NONE") freshWorld).1 = (404, freshWorld) ∧
  (forceScrapeEndpoint upstreamUp None freshWorld).1 = (400, freshWorld).
Proof.
  split; [|split].
  - pose proof (forceScrape_statuses upstreamUp (Some "TEN") freshWorld [campsite10h]
                  eq_refl) as H.
    destruct (forceScrapeEndpoint upstreamUp (Some "TEN") freshWorld)
      as [[status w'] completion].
    destruct H as [(_ & _ & [H|H]) | [(_ & _ & s & Hs & _ & Hall) | (Hst & _)]];
      try discriminate H.
    + injection Hs as <-. inversion Hall as [|? ? Hx _]. now contradiction Hx.
    + exact Hst.
  - pose proof (forceScrape_statuses upstreamUp (Some "NONE") freshWorld [campsite10h]
                  eq_refl) as H.
    destruct (forceScrapeEndpoint upstreamUp (Some "NONE") freshWorld)
      as [[status w'] completion].
    destruct H as [(_ & _ & [H|H]) | [(Hst & Hw & _) | (_ & s & b & x & a & Hs & _ & Hl & Hx & _)]];
      try discriminate H.
    + cbn [fst]. now rewrite Hst, Hw.
    + injection Hs as <-. destruct b as [|y [|z b]]; try discriminate Hl.
      injection Hl as <- _. discriminate Hx.
  - pose proof (forceScrape_statuses upstreamUp None freshWorld [campsite10h]
                  eq_refl) as H.
    destruct (forceScrapeEndpoint upstreamUp None freshWorld)
      as [[status w'] completion].
    destruct H as [(Hst & Hw & _) | [(_ & _ & s & Hs & _) | (_ & s & b & x & a & Hs & _)]];
      try discriminate Hs.
    cbn [fst]. now rewrite Hst, Hw.
Defined.

(** ** Scraping a steady upstream *)

Lemma cachedSupplier_truthy w i :
  truthy (cachedSupplier w i) = true ->
  supplierCacheOf w !! ToString i = Some (cachedSupplier w i).
Proof.
  unfold cachedSupplier. destruct (supplierCacheOf w !! ToString i); cbn;
    [reflexivity | discriminate].
Qed.

Lemma coherent_file env w w' :
  supplier_cache_file w' = supplier_cache_file w -> coherent env w -> coherent env w'.
Proof. intros H Hc i u. rewrite (supplierCacheOf_file _ _ H). apply Hc. Qed.

Lemma expectedSupplier_key env i j :
  steady env -> ToString i = ToString j -> expectedSupplier env i = expectedSupplier env j.
Proof.
  intros (_ & Hcard & _) Hij. unfold expectedSupplier.
  now rewrite (Hcard 0%nat 0%nat i j Hij).
Qed.

Lemma fetchSupplierData_steady env i w :
  steady env -> coherent env w ->
  (fetchSupplierData env i w).2 = expectedSupplier env i ∧
  coherent env (fetchSupplierData env i w).1.
Proof.
  intros Hsteady Hcoh.
  destruct (truthy (cachedSupplier w i)) eqn:Ht.
  - rewrite (fetchSupplierData_hit _ _ _ Ht). split; [|exact Hcoh].
    apply Hcoh; [now apply cachedSupplier_truthy | exact Ht].
  - rewrite (fetchSupplierData_miss _ _ _ Ht).
    destruct Hsteady as (Hsearch & Hcard & Hclock).
    assert (Hany : ∀ n, card_api env n i = card_api env 0 i)
      by (intros n; now apply Hcard).
    unfold expectedSupplier.
    cbn [supplierAttempts maxRetries Nat.ltb Nat.leb].
    destruct (card_api env 0 i) as [response_data|] eqn:Hcard0; rewrite !Hany.
    + split; [reflexivity|]. cbn [fst].
      intros j u. unfold supplierCacheOf at 1, loadFile. cbn.
      destruct (decide (ToString i = ToString j)) as [Hij|Hij].
      * rewrite Hij, lookup_insert_eq. intros [= <-] _.
        unfold expectedSupplier. rewrite <- (Hcard 0%nat 0%nat i j Hij), Hcard0.
        reflexivity.
      * rewrite lookup_insert_ne by exact Hij. apply Hcoh.
    + split; [reflexivity|]. cbn [fst]. now apply (coherent_file env w).
Qed.

Lemma transformItems_steady env c date ts combined acc w :
  steady env -> coherent env w ->
  (transformItems env c date ts combined acc w).2 = pureItems env c date ts combined acc ∧
  coherent env (transformItems env c date ts combined acc w).1.
Proof.
  intros Hsteady. revert acc w.
  induction combined as [|item rest IH]; intros acc w Hcoh;
    cbn [transformItems pureItems fold_left]; [now split|].
  destruct (fetchSupplierData_steady env (item_id item) w Hsteady Hcoh) as [Hv Hcoh1].
  destruct (fetchSupplierData env (item_id item) w) as [w1 sup]. cbn [fst snd] in *.
  subst sup. apply IH. now apply (coherent_file env w1).
Qed.

Lemma fetchData_steady env c date w :
  steady env -> coherent env w ->
  (fetchData env (createRequestBody date c) c date w).2 = pureFetch env c date ∧
  coherent env (fetchData env (createRequestBody date c) c date w).1.
Proof.
  intros Hsteady Hcoh. pose proof Hsteady as (Hsearch & _ & Hclock).
  unfold pureFetch. rewrite <- (Hsearch (net_calls w) 0%nat).
  destruct (searchFails env (net_calls w) (createRequestBody date c)) eqn:Hf.
  - rewrite (fetchData_fails _ _ _ _ _ Hf). cbn [fst snd]. unfold searchFails in Hf.
    split; [|now apply (coherent_file env w)].
    destruct (search_api env (net_calls w) _) as [[[d|]]|]; [discriminate | |]; reflexivity.
  - unfold searchFails in Hf.
    destruct (search_api env (net_calls w) (createRequestBody date c))
      as [[[d|]]|] eqn:Hs; try discriminate.
    rewrite (fetchData_succeeds _ _ _ _ _ _ Hs). cbv zeta.
    unfold now. rewrite (Hclock _ 0%nat).
    destruct (transformItems_steady env c date (ingestionTimestamp (clock env 0))
                (combinedListings d) ∅
                (emit (EvPost (createRequestBody date c)) w) Hsteady)
      as [Hm Hcoh2]; [now apply (coherent_file env w)|].
    destruct (transformItems _ _ _ _ _ _ _) as [w2 m]. cbn [fst snd] in *.
    now subst m.
Qed.

Lemma scrapeDates_steady env c dates acc w :
  steady env -> coherent env w ->
  (scrapeDates env c dates acc w).2 = pureDates env c dates acc ∧
  coherent env (scrapeDates env c dates acc w).1.
Proof.
  intros Hsteady. revert acc w.
  induction dates as [|[label date] rest IH]; intros acc w Hcoh;
    cbn [scrapeDates pureDates]; [now split|].
  destruct (fetchData_steady env c date w Hsteady Hcoh) as [Hfetched Hcoh1].
  destruct (fetchData env (createRequestBody date c) c date w) as [w1 fetched].
  cbn [fst snd] in *. subst fetched.
  apply IH. now apply (coherent_file env w1).
Qed.


Lemma steady_upstreamUp : steady upstreamUp.
Proof. repeat split. Qed.

Lemma coherent_cachedAcmeWorld : coherent upstreamUp cachedAcmeWorld.
Proof.
  intros i u Hk _. unfold supplierCacheOf, loadFile in Hk. cbn in Hk.
  apply lookup_singleton_Some in Hk as [_ <-]. reflexivity.
Qed.


Lemma pureItems_same_site env c c' date ts combined acc :
  same_site c c' ->
  pureItems env c' date ts combined acc = pureItems env c date ts combined acc.
Proof.
  intros (Hcode & _). unfold pureItems. revert acc.
  induction combined as [|item rest IH]; intros acc; cbn [fold_left]; [reflexivity|].
  rewrite IH. unfold transform. now rewrite Hcode.
Qed.

Lemma pureDates_same_site env c c' dates acc :
  same_site c c' -> pureDates env c' dates acc = pureDates env c dates acc.
Proof.
  intros Hsame. revert acc.
  induction dates as [|[label date] rest IH]; intros acc; cbn [pureDates]; [reflexivity|].
  rewrite IH. f_equal. unfold pureFetch.
  assert (Hbody : createRequestBody date c' = createRequestBody date c).
  { destruct Hsame as (_ & Hn & Hco & Hr). unfold createRequestBody.
    now rewrite Hn, Hco, Hr. }
  rewrite Hbody.
  destruct (search_api env 0 (createRequestBody date c)) as [[[d|]]|]; try reflexivity.
  now rewrite (pureItems_same_site env c c').
Qed.

Lemma reconcile_twice (campsiteCode : string) (new prior : gmap string ResultRecord) :
  new ∪ removeCampsite campsiteCode (new ∪ removeCampsite campsiteCode prior)
  = new ∪ removeCampsite campsiteCode prior.
Proof.
  apply map_eq. intros k. destruct (new !! k) as [r|] eqn:Hnew.
  - now rewrite !(lookup_union_Some_l _ _ _ _ Hnew).
  - rewrite !lookup_union_r by exact Hnew.
    unfold removeCampsite.
    destruct (filter (fun kv => campsite kv.2 ≠ campsiteCode) prior !! k) as [r|] eqn:Hold.
    + apply map_lookup_filter_Some. split.
      * now rewrite lookup_union_r.
      * now apply map_lookup_filter_Some in Hold as [_ Hc].
    + apply map_lookup_filter_None. left. now rewrite lookup_union_r.
Qed.

(** X18.  Idempotent replacement: with a steady upstream and a supplier
    cache that agrees with it, scraping the same campsite a second time
    (its object may carry another [lastUpdate]) saves exactly the result
    store the first scrape saved. *)
Theorem second_scrape_changes_nothing (env : Env) (c c' : Campsite) (w : World) :
  steady env ->
  coherent env w ->
  same_site c c' ->
  data_file (scrapeCampsite env c' (scrapeCampsite env c w).1.1).1.1
  = data_file (scrapeCampsite env c w).1.1.
Proof.
  intros Hsteady Hcoh Hsame.
  pose proof (scrapeCampsite_spec env c w) as H1.
  pose proof (scrapeCampsite_store env c w) as Hstore.
  pose proof (scrapeDates_steady env c (datesOf w) ∅ w Hsteady Hcoh) as [Hnew Hcoh1].
  pose proof (coherent_file env _ _ (scrapeCampsite_supplier_cache env c w) Hcoh1) as Hcoh2.
  destruct (scrapeCampsite env c w) as [[w1 c1] completion1]. cbn [fst] in *.
  destruct H1 as (Hdata1 & Hdates1 & _).
  pose proof (scrapeCampsite_spec env c' w1) as H2.
  pose proof (scrapeDates_steady env c' (datesOf w1) ∅ w1 Hsteady Hcoh2) as [Hnew2 _].
  destruct (scrapeCampsite env c' w1) as [[w2 c2] completion2]. cbn [fst] in *.
  destruct H2 as (Hdata2 & _).
  assert (Hdates : datesOf w1 = datesOf w).
  { unfold datesOf, loadFile. cbn [read_file]. now rewrite Hdates1. }
  rewrite Hdata2, Hdata1. f_equal.
  unfold Object_assign, newResultsOf.
  rewrite Hnew2, Hnew, Hdates, (pureDates_same_site env c c' _ _ Hsame).
  rewrite Hstore. unfold newResultsOf. rewrite Hnew.
  destruct Hsame as (-> & _). apply reconcile_twice.
Qed.

Lemma second_scrape_changes_nothing_witness :
  data_file (scrapeCampsite upstreamUp (setLastUpdate sampleInstant campsiteABC)
               (scrapeCampsite upstreamUp campsiteABC cachedAcmeWorld).1.1).1.1
  = data_file (scrapeCampsite upstreamUp campsiteABC cachedAcmeWorld).1.1.
Proof.
  apply (second_scrape_changes_nothing upstreamUp campsiteABC
           (setLastUpdate sampleInstant campsiteABC) cachedAcmeWorld).
  - exact steady_upstreamUp.
  - exact coherent_cachedAcmeWorld.
  - now repeat split.
Defined.
